(** * Sentence filter of the Norwegian Common Voice text pipeline

    A shallow embedding of [filter.py]: the nine fast filters, the
    spaCy-backed proper-noun filter, the two filtering passes with
    their rejection statistics, and the chunked writer. *)

From Stdlib Require Import ZArith NArith QArith Qround Ascii String DecimalString.
From Stdlib Require DecimalZ SpecFloat.
From stdpp Require Import gmap strings list fin_maps.
From Equations Require Import Equations.

Set Default Proof Using "Type".
Local Open Scope Z_scope.

(** ** Python values *)

(** A Python [str] is a sequence of Unicode code points. *)
Abbreviation char := N (only parsing).
Abbreviation str := (list N) (only parsing).

(** [lit] reads an ASCII literal as a [str]; code points above 127 are
    written numerically where the source uses them. *)
Definition lit (s : string) : str :=
  List.map N_of_ascii (list_ascii_of_string s).

(** The exceptions the modelled statements can raise. *)
Inductive exn :=
| IndexError
| KeyError (key : string)
| ValueError
| ZeroDivisionError.

Inductive result (A : Type) :=
| Ok (a : A)
| Raise (e : exn).
Arguments Ok {A} a.
Arguments Raise {A} e.

#[export] Instance result_ret : MRet result := λ A a, Ok a.
#[export] Instance result_bind : MBind result := λ A B k m,
  match m with
  | Ok a => k a
  | Raise e => Raise e
  end.

(** ** Character classification

    [str.isspace], [str.strip], [str.split] and the regular-expression
    class [\s] share CPython's whitespace test ([Py_UNICODE_ISSPACE]),
    whose table is short enough to be written out.  [str.isupper] and
    [str.isdigit] on one character read the Unicode character database,
    which is not part of the repository: they are parameters. *)
Definition between (lo hi c : N) : bool := ((lo <=? c) && (c <=? hi))%N.

Definition isspace (c : char) : bool :=
  between 9 13 c || between 28 32 c || (c =? 133)%N || (c =? 160)%N
  || (c =? 5760)%N || between 8192 8202 c || (c =? 8232)%N || (c =? 8233)%N
  || (c =? 8239)%N || (c =? 8287)%N || (c =? 12288)%N.

Class UnicodeData := {
  isupper : char → bool;
  isdigit : char → bool
}.

(** The Latin-1 part of the database: Python's answers on code points
    below 256, and [false] above.  It serves to run the filters on
    concrete Latin-1 input. *)
Definition latin1 : UnicodeData := {|
  isupper c := between 65 90 c || between 192 214 c || between 216 222 c;
  isdigit c := between 48 57 c || (c =? 178)%N || (c =? 179)%N || (c =? 185)%N
|}.

(** ** [str] and [list] operations *)

(** [len(x)] and truthiness of a sequence. *)
Definition len {A} (l : list A) : Z := Z.of_nat (length l).
Definition truthy {A} (l : list A) : bool :=
  match l with [] => false | _ => true end.

(** [x[i]], with Python's negative indices and [IndexError]. *)
Definition getitem {A} (l : list A) (i : Z) : result A :=
  let j := if i <? 0 then i + len l else i in
  if (j <? 0) || (len l <=? j) then Raise IndexError
  else match l !! Z.to_nat j with
       | Some a => Ok a
       | None => Raise IndexError
       end.

(** [x[lo:hi]] and [x[lo:]]. *)
Definition clamp {A} (l : list A) (i : Z) : nat :=
  Z.to_nat (if i <? 0 then Z.max 0 (i + len l) else Z.min i (len l)).
Definition slice {A} (l : list A) (lo hi : Z) : list A :=
  take (clamp l hi - clamp l lo)%nat (drop (clamp l lo) l).
Definition slice_from {A} (l : list A) (lo : Z) : list A :=
  drop (clamp l lo) l.

Fixpoint lstrip (s : str) : str :=
  match s with
  | [] => []
  | c :: rest => if isspace c then lstrip rest else s
  end.
Definition rstrip (s : str) : str := rev (lstrip (rev s)).
Definition strip (s : str) : str := rstrip (lstrip s).

(** [s.split(sep)] for a one-character separator. *)
Fixpoint split_on (sep : char) (s : str) : list str :=
  match s with
  | [] => [[]]
  | c :: rest =>
      if (c =? sep)%N then [] :: split_on sep rest
      else match split_on sep rest with
           | p :: ps => (c :: p) :: ps
           | [] => [[c]]
           end
  end.

(** [s.split()]: maximal runs of non-whitespace.  [cur] is the run
    being scanned, in reverse. *)
Fixpoint split_go (cur : str) (s : str) : list str :=
  match s with
  | [] => if truthy cur then [rev cur] else []
  | c :: rest =>
      if isspace c
      then (if truthy cur then rev cur :: split_go [] rest
            else split_go [] rest)
      else split_go (c :: cur) rest
  end.
Definition split (s : str) : list str := split_go [] s.

(** [s.count(c)] and [c in s] for one character. *)
Definition count (c : char) (s : str) : Z :=
  len (List.filter (N.eqb c) s).
Definition contains (c : char) (s : str) : bool := existsb (N.eqb c) s.

(** [str(n)] for an integer. *)
Definition str_of_int (n : Z) : str :=
  lit (NilEmpty.string_of_int (Z.to_int n)).

(** [os.path.join(folder, name)] for a relative [name] (POSIX). *)
Definition path_join (folder name : str) : str :=
  match last folder with
  | None => name
  | Some c => if (c =? 47)%N then folder ++ name
              else folder ++ 47%N :: name
  end.

(** ** Filters (fast first, then the spaCy filter) *)

Section Filters.
Context {UD : UnicodeData}.

Definition starts_with_capital (sentence : str) : result bool :=
  let stripped := lstrip sentence in
  if truthy stripped
  then c ← getitem stripped 0; mret (isupper c)
  else mret false.

Definition has_no_parentheses (sentence : str) : result bool :=
  mret (negb (contains 40%N sentence) && negb (contains 41%N sentence)).

(** Membership in the set literal [{'.', '?'}]. *)
Definition end_punct (c : char) : bool := (c =? 46)%N || (c =? 63)%N.

Definition ends_with_punctuation (sentence : str) : result bool :=
  let stripped := rstrip sentence in
  if truthy stripped
  then c ← getitem stripped (-1); mret (end_punct c)
  else mret false.

Definition only_one_sentence (sentence : str) : result bool :=
  let stripped := rstrip sentence in
  if negb (truthy stripped) then mret false
  else
    let total_punct := count 46%N stripped + count 63%N stripped in
    if total_punct =? 1
    then c ← getitem stripped (-1); mret (end_punct c)
    else mret false.

Definition has_no_numbers (sentence : str) : result bool :=
  mret (negb (existsb isdigit sentence)).

(** The character class of the pattern of [no_special_characters]:
    [a-zA-Z], the six Norwegian letters, [\s], and the punctuation
    [,.!?'] U+2019 [:;-]. *)
Definition allowed_char (c : char) : bool :=
  between 97 122 c || between 65 90 c
  || (c =? 230)%N || (c =? 248)%N || (c =? 229)%N
  || (c =? 198)%N || (c =? 216)%N || (c =? 197)%N
  || isspace c
  || (c =? 44)%N || (c =? 46)%N || (c =? 33)%N || (c =? 63)%N
  || (c =? 39)%N || (c =? 8217)%N || (c =? 58)%N || (c =? 59)%N
  || (c =? 45)%N.

(** [re.fullmatch] of [^[...]*$]: the starred class has to consume the
    whole string, so every character is in the class. *)
Definition no_special_characters (sentence : str) : result bool :=
  mret (forallb allowed_char sentence).

(** The sum over the generator [2 if len(w) > 10 else 1 for w in words]. *)
Definition effective_word_count (words : list str) : Z :=
  foldl (λ acc w, acc + (if 10 <? len w then 2 else 1)) 0 words.

(** Reading time is computed in binary64 in the source; the quotients
    are taken here as exact rationals.  The two accept the same
    effective word counts: the bounds fall at 10/3 and 35/3 words, far
    from any integer. *)
Definition reading_time_filter_with (wpm min_sec max_sec : Z)
    (sentence : str) : result bool :=
  let words := split sentence in
  let effective_word_count := effective_word_count words in
  let words_per_second := (inject_Z wpm / 60)%Q in
  if Qeq_bool words_per_second 0 then Raise ZeroDivisionError
  else
    let reading_time := (inject_Z effective_word_count / words_per_second)%Q in
    mret (Qle_bool (inject_Z min_sec) reading_time
          && Qle_bool reading_time (inject_Z max_sec)).
Definition reading_time_filter : str → result bool :=
  reading_time_filter_with 100 2 7.

Definition max_word_count_filter_with (max_words : Z) (sentence : str)
    : result bool :=
  mret (len (split sentence) <=? max_words).
Definition max_word_count_filter : str → result bool :=
  max_word_count_filter_with 14.

(** The loop [for word in words[1:]] with its early [return False]. *)
Fixpoint no_capital_word (words : list str) : result bool :=
  match words with
  | [] => mret true
  | word :: rest =>
      c ← getitem word 0;
      if isupper c then mret false else no_capital_word rest
  end.

Definition basic_proper_noun_filter (sentence : str) : result bool :=
  let words := split sentence in
  if 1 <? len words then no_capital_word (slice_from words 1)
  else mret true.

(** A spaCy token, reduced to the attribute the filter reads. *)
Record Token := { pos_ : string }.

Definition create_proper_noun_filter (nlp : str → list Token)
    (sentence : str) : result bool :=
  let doc := nlp sentence in
  mret (negb (existsb (λ token, String.eqb (pos_ token) "PROPN") doc)).

End Filters.

(** ** Loops and dictionaries *)

(** [for x in l: body], threading the variables the body assigns. *)
Fixpoint for_each {S A} (body : S → A → result S) (l : list A) (st : S)
    : result S :=
  match l with
  | [] => mret st
  | x :: rest => st' ← body st x; for_each body rest st'
  end.

(** [d[key] += 1]: the read raises [KeyError] on a missing key. *)
Definition increment (d : gmap string Z) (key : string)
    : result (gmap string Z) :=
  match d !! key with
  | Some v => mret (<[key := v + 1]> d)
  | None => Raise (KeyError key)
  end.

(** [range(start, stop, step)], as the sequence a [for] loop visits. *)
Equations? range_up (i stop : Z) (step : positive) : list Z
    by wf (Z.to_nat (stop - i)) lt :=
  range_up i stop step with Z_lt_dec i stop => {
    | left _ := i :: range_up (i + Z.pos step) stop step;
    | right _ := [] }.
Proof. lia. Qed.

Equations? range_down (i stop : Z) (step : positive) : list Z
    by wf (Z.to_nat (i - stop)) lt :=
  range_down i stop step with Z_lt_dec stop i => {
    | left _ := i :: range_down (i - Z.pos step) stop step;
    | right _ := [] }.
Proof. lia. Qed.

Definition range (start stop step : Z) : result (list Z) :=
  match step with
  | Z0 => Raise ValueError
  | Z.pos p => mret (range_up start stop p)
  | Z.neg p => mret (range_down start stop p)
  end.

(** ** Main logic *)

Section Main.
Context {UD : UnicodeData}.

(** Variables of [main] that the first pass assigns. *)
Record fast_state := {
  filter_fail_count : gmap string Z;
  survivors : list str;
  total_lines : Z
}.

Definition fast_filters : list ((str → result bool) * string) := [
  (starts_with_capital, "starts_with_capital"%string);
  (has_no_parentheses, "has_no_parentheses"%string);
  (ends_with_punctuation, "ends_with_punctuation"%string);
  (only_one_sentence, "only_one_sentence"%string);
  (has_no_numbers, "has_no_numbers"%string);
  (no_special_characters, "no_special_characters"%string);
  (reading_time_filter, "reading_time_filter"%string);
  (max_word_count_filter, "max_word_count_filter"%string);
  (basic_proper_noun_filter, "basic_proper_noun_filter"%string)
].

(** Track how many sentences each filter kills. *)
Definition initial_fail_count : gmap string Z :=
  <["proper_noun_filter"%string := 0]>
    (foldl (λ d '(_, filter_name), <[filter_name := 0]> d) ∅ fast_filters).

(** The inner loop over [fast_filters], with its [break]; the result is
    [passed_all_fast] and the updated dictionary. *)
Fixpoint apply_fast_filters (filters : list ((str → result bool) * string))
    (sentence : str) (fail_count : gmap string Z)
    : result (bool * gmap string Z) :=
  match filters with
  | [] => mret (true, fail_count)
  | (filter_func, filter_name) :: rest =>
      ok ← filter_func sentence;
      if negb ok
      then fail_count' ← increment fail_count filter_name;
           mret (false, fail_count')
      else apply_fast_filters rest sentence fail_count
  end.

(** One iteration of the first pass. *)
Definition fast_pass_body (st : fast_state) (line : str)
    : result fast_state :=
  let line := strip line in
  if negb (truthy line) then mret st
  else
    let parts := split_on 9%N line in
    if len parts <? 2 then mret st
    else
      let total_lines := total_lines st + 1 in
      field ← getitem parts 1;
      let sentence := strip field in
      '(passed_all_fast, fail_count) ←
        apply_fast_filters fast_filters sentence (filter_fail_count st);
      mret {| filter_fail_count := fail_count;
              survivors := if passed_all_fast : bool
                           then survivors st ++ [sentence]
                           else survivors st;
              total_lines := total_lines |}.

Definition fast_pass (lines : list str) : result fast_state :=
  for_each fast_pass_body lines
    {| filter_fail_count := initial_fail_count;
       survivors := [];
       total_lines := 0 |}.

(** One iteration of the second pass, over [final_pass] and the
    dictionary. *)
Definition slow_pass_body (spaCy_filter_func : str → result bool)
    (st : list str * gmap string Z) (sentence : str)
    : result (list str * gmap string Z) :=
  let '(final_pass, fail_count) := st in
  ok ← spaCy_filter_func sentence;
  if ok : bool then mret (final_pass ++ [sentence], fail_count)
  else fail_count' ← increment fail_count "proper_noun_filter";
       mret (final_pass, fail_count').

Definition slow_pass (spaCy_filter_func : str → result bool)
    (survivors : list str) (fail_count : gmap string Z)
    : result (list str * gmap string Z) :=
  for_each (slow_pass_body spaCy_filter_func) survivors ([], fail_count).

(** Metadata for final output lines. *)
Definition source : str :=
  lit "https://www.nb.no/sprakbanken/ressurskatalog/oai-nb-no-sbr-80/".
Definition additional_rationale : str :=
  lit "This is a CC0 licensed corpus cleared from newspaper text. "
  ++ lit "The source sentences from a translation corpus is used.  "
  ++ lit "It is released by Spr" ++ [229%N] ++ lit "kbanken.".
Definition domain : str := lit "General".

Definition tab : str := [9%N].
Definition newline : str := [10%N].

(** The string one [outfile.write] call receives. *)
Definition output_line (single_sentences : bool) (sentence : str) : str :=
  if single_sentences then sentence ++ newline
  else sentence ++ tab ++ source ++ tab ++ additional_rationale ++ tab
       ++ [] ++ tab ++ domain ++ newline.

(** A file the writer has opened with mode ['w'] and closed: its name,
    the slice [chunk] it was written from, and its text. *)
Record output_file := {
  chunk_filename : str;
  chunk : list str;
  text : str
}.

(** One iteration of the writer's loop, over [chunk_count] and the
    files written so far. *)
Definition write_body (final_pass : list str) (output_folder : str)
    (single_sentences : bool) (CHUNK_SIZE : Z)
    (st : Z * list output_file) (i : Z) : Z * list output_file :=
  let '(chunk_count, files) := st in
  let chunk_count := chunk_count + 1 in
  let chunk := slice final_pass i (i + CHUNK_SIZE) in
  let chunk_filename :=
    path_join output_folder
      (lit "output_" ++ str_of_int chunk_count ++ lit ".tsv") in
  (chunk_count,
   files ++ [{| chunk_filename := chunk_filename;
                chunk := chunk;
                text := concat (List.map (output_line single_sentences) chunk) |}]).

Definition write_chunks (final_pass : list str) (output_folder : str)
    (single_sentences : bool) (CHUNK_SIZE : Z)
    : result (Z * list output_file) :=
  indices ← range 0 (len final_pass) CHUNK_SIZE;
  mret (foldl (write_body final_pass output_folder single_sentences CHUNK_SIZE)
              (0, []) indices).

(** What a completed run leaves behind: the statistics it prints and
    the files it wrote, in order. *)
Record report := {
  rejected : gmap string Z;
  lines_processed : Z;
  total_final : Z;
  chunk_count : Z;
  written : list output_file
}.

(** Both passes: the dictionary, [total_lines] and [final_pass]. *)
Definition filter_passes (nlp : str → list Token) (lines : list str)
    : result (gmap string Z * Z * list str) :=
  let spaCy_filter_func := create_proper_noun_filter nlp in
  st ← fast_pass lines;
  '(final_pass, fail_count) ←
    slow_pass spaCy_filter_func (survivors st) (filter_fail_count st);
  mret (fail_count, total_lines st, final_pass).

(** [main], from the point where the arguments are validated and the
    model is loaded; [lines] is the result of [infile.readlines()], and
    [tqdm] only reports progress. *)
Definition main (nlp : str → list Token) (lines : list str)
    (output_folder : str) (single_sentences : bool) (chunk_size : Z)
    : result report :=
  '(fail_count, total_lines, final_pass) ← filter_passes nlp lines;
  '(chunk_count, files) ←
    write_chunks final_pass output_folder single_sentences chunk_size;
  mret {| rejected := fail_count;
          lines_processed := total_lines;
          total_final := len final_pass;
          chunk_count := chunk_count;
          written := files |}.

(** The output folder after the run: each file is created or
    truncated, then written. *)
Definition disk_after (disk : gmap str str) (files : list output_file)
    : gmap str str :=
  foldl (λ d f, <[chunk_filename f := text f]> d) disk files.

End Main.


(** * Vocabulary of the properties *)

(** Empty or whitespace-only strings. *)
Definition blank (s : str) : bool := forallb isspace s.

(** A filter is total when it raises on no input. *)
Definition total (f : str → result bool) : Prop := ∀ s, ∃ b, f s = Ok b.

(** The verdict of a filter on a sentence. *)
Definition accepts (f : str → result bool) (s : str) : bool :=
  match f s with Ok true => true | _ => false end.
Definition rejects (f : str → result bool) (s : str) : bool :=
  match f s with Ok false => true | _ => false end.

(** The filters [apply_fast_filters] calls on a sentence, by name, in
    the order of the calls. *)
Fixpoint evaluated (filters : list ((str → result bool) * string))
    (sentence : str) : list string :=
  match filters with
  | [] => []
  | (filter_func, filter_name) :: rest =>
      filter_name ::
      match filter_func sentence with
      | Ok true => evaluated rest sentence
      | _ => []
      end
  end.

(** The sum of all values of the dictionary. *)
Definition total_rejected (d : gmap string Z) : Z :=
  map_fold (λ _ v acc, v + acc) 0 d.

(** The keys of the dictionary, in the order they are inserted. *)
Definition filter_names : list string := [
  "starts_with_capital"; "has_no_parentheses"; "ends_with_punctuation";
  "only_one_sentence"; "has_no_numbers"; "no_special_characters";
  "reading_time_filter"; "max_word_count_filter";
  "basic_proper_noun_filter" ]%string.
Definition counter_names : list string :=
  filter_names ++ ["proper_noun_filter"%string].

(** Every named counter is present. *)
Definition seeded (d : gmap string Z) : Prop :=
  Forall (λ name, is_Some (d !! name)) counter_names.

(** The counter a key holds, and the sum of the ten named counters. *)
Definition counter (d : gmap string Z) (name : string) : Z :=
  default 0 (d !! name).
Definition sum_counters (d : gmap string Z) : Z :=
  foldr (λ name acc, counter d name + acc) 0 counter_names.

(** The sentence the first pass reads off a line: the second
    tab-delimited field of the stripped line, stripped; [None] for a
    line the pass skips. *)
Definition sentence_of (line : str) : option str :=
  let line := strip line in
  if truthy line then
    match split_on 9%N line with
    | _ :: field :: _ => Some (strip field)
    | _ => None
    end
  else None.

Definition input_sentences (lines : list str) : list str :=
  omap sentence_of lines.

Section Vocabulary.
Context {UD : UnicodeData}.

(** The sentences the fast pass keeps, and those both passes keep. *)
Definition passes_fast (s : str) : bool :=
  forallb (λ p, accepts p.1 s) fast_filters.
Definition kept (nlp : str → list Token) (s : str) : bool :=
  passes_fast s && accepts (create_proper_noun_filter nlp) s.

(** The variables of the first pass after the lines [pre]. *)
Definition fast_inv (pre : list str) (st : fast_state) : Prop :=
  seeded (filter_fail_count st) ∧
  dom (filter_fail_count st) = list_to_set counter_names ∧
  survivors st = List.filter passes_fast (input_sentences pre) ∧
  total_lines st = len (input_sentences pre) ∧
  total_lines st = total_rejected (filter_fail_count st) + len (survivors st).

End Vocabulary.

(** The file the writer produces at the index [i] when [count] files
    precede it. *)
Definition file_at (final_pass : list str) (output_folder : str)
    (single_sentences : bool) (CHUNK_SIZE : Z) (count : Z) (i : Z)
    : output_file :=
  {| chunk_filename :=
       path_join output_folder
         (lit "output_" ++ str_of_int (count + 1) ++ lit ".tsv");
     chunk := slice final_pass i (i + CHUNK_SIZE);
     text := concat (List.map (output_line single_sentences)
                       (slice final_pass i (i + CHUNK_SIZE))) |}.

(** A line of a full-mode file. *)
Definition full_mode_line (sentence : str) : str :=
  sentence ++ tab ++ source ++ tab ++ additional_rationale ++ tab ++ tab
  ++ domain ++ newline.

(** The last text written under a path, if any. *)
Definition last_text (files : list output_file) (path : str) : option str :=
  foldl (λ acc f, if decide (chunk_filename f = path) then Some (text f)
                  else acc) None files.

(** The verdict of [reading_time_filter] on an effective word count,
    recomputed in IEEE 754 binary64 with round-to-nearest-even. *)
Definition binary64 (n : Z) : SpecFloat.spec_float :=
  SpecFloat.binary_normalize 53 1024 n 0 false.
Definition reading_time_verdict_binary64 (wpm min_sec max_sec n : Z) : bool :=
  let words_per_second := SpecFloat.SFdiv 53 1024 (binary64 wpm) (binary64 60) in
  let reading_time := SpecFloat.SFdiv 53 1024 (binary64 n) words_per_second in
  SpecFloat.SFleb (binary64 min_sec) reading_time
  && SpecFloat.SFleb reading_time (binary64 max_sec).

(** The one-line input of Scenario A. *)
Definition scenario_A : str := lit "1" ++ tab ++ lit "Hallo der." ++ newline.

(** A tagger that finds no proper noun anywhere. *)
Definition no_proper_nouns : str → list Token := λ _, [].

(** The name of the first filter, in list order, that does not accept
    the sentence. *)
Fixpoint first_reject (filters : list ((str → result bool) * string))
    (sentence : str) : option string :=
  match filters with
  | [] => None
  | (filter_func, filter_name) :: rest =>
      if accepts filter_func sentence then first_reject rest sentence
      else Some filter_name
  end.

(** A line as [readlines] returns it: no newline except, possibly, as
    its last character. *)
Definition read_line (line : str) : Prop :=
  ∃ body, count 10%N body = 0 ∧ (line = body ∨ line = body ++ newline).

(** A line of a full-mode file without its newline. *)
Definition full_mode_fields (sentence : str) : str :=
  sentence ++ tab ++ source ++ tab ++ additional_rationale ++ tab ++ tab
  ++ domain.

(** * Properties *)

(** ** The error monad and sequence operations *)

Lemma bind_Ok {A B} (a : A) (k : A → result B) : (Ok a ≫= k) = k a.
Proof. reflexivity. Qed.

Lemma bind_Raise {A B} (e : exn) (k : A → result B) :
  (Raise e ≫= k) = Raise e.
Proof. reflexivity. Qed.

Lemma bind_inv {A B} (m : result A) (k : A → result B) (b : B) :
  (m ≫= k) = Ok b → ∃ a, m = Ok a ∧ k a = Ok b.
Proof. destruct m as [a|e]; [eauto | discriminate]. Qed.

Lemma len_nonneg {A} (l : list A) : 0 ≤ len l.
Proof. unfold len. lia. Qed.

Lemma len_app {A} (l k : list A) : len (l ++ k) = len l + len k.
Proof. unfold len. rewrite length_app. lia. Qed.

Lemma len_cons {A} (a : A) (l : list A) : len (a :: l) = len l + 1.
Proof. unfold len. simpl. lia. Qed.

Lemma truthy_true {A} (l : list A) : truthy l = true ↔ l ≠ [].
Proof. destruct l; simpl; split; congruence. Qed.

Lemma getitem_first {A} (a : A) (l : list A) : getitem (a :: l) 0 = Ok a.
Proof.
  unfold getitem. rewrite len_cons. simpl.
  destruct (len l + 1 <=? 0) eqn:E; [|done].
  pose proof (len_nonneg l). lia.
Qed.

Lemma getitem_last {A} (l : list A) (a : A) :
  getitem (l ++ [a]) (-1) = Ok a.
Proof.
  unfold getitem. rewrite len_app, len_cons.
  change (len (@nil A)) with 0. change (-1 <? 0) with true. cbv iota.
  pose proof (len_nonneg l) as Hl.
  replace (-1 + (len l + (0 + 1))) with (len l) by lia.
  destruct (len l <? 0) eqn:E1; [lia|].
  destruct (len l + (0 + 1) <=? len l) eqn:E2; [lia|].
  simpl. replace (Z.to_nat (len l)) with (length l) by (unfold len; lia).
  by rewrite list_lookup_middle.
Qed.

Lemma getitem_last_truthy {A} (l : list A) :
  truthy l = true → ∃ a, getitem l (-1) = Ok a ∧ last l = Some a.
Proof.
  intros H. destruct l as [|x l _] using rev_ind; [done|].
  exists x. split; [apply getitem_last | apply last_snoc].
Qed.

(** ** Whitespace *)

Lemma lstrip_blank s : blank s = true → lstrip s = [].
Proof.
  induction s as [|c s IH]; [done|]. simpl.
  intros [Hc Hs]%andb_prop. rewrite Hc. auto.
Qed.

Lemma blank_rev s : blank (rev s) = blank s.
Proof.
  unfold blank. induction s as [|c s IH]; [done|]. simpl.
  rewrite forallb_app, IH. simpl. rewrite andb_true_r. apply andb_comm.
Qed.

Lemma rstrip_blank s : blank s = true → rstrip s = [].
Proof.
  intros H. unfold rstrip. rewrite lstrip_blank; [done|].
  by rewrite blank_rev.
Qed.

Lemma split_go_nonempty cur s : Forall (λ w, w ≠ []) (split_go cur s).
Proof.
  revert cur. induction s as [|c s IH]; intros cur; simpl.
  - destruct cur as [|x cur]; simpl; [constructor|].
    constructor; [|constructor].
    intros H%(f_equal (@length _)). rewrite length_app in H. simpl in H. lia.
  - destruct (isspace c); [|apply IH].
    destruct cur as [|x cur]; simpl; [apply IH|].
    constructor; [|apply IH].
    intros H%(f_equal (@length _)). rewrite length_app in H. simpl in H. lia.
Qed.

Lemma split_nonempty s : Forall (λ w, w ≠ []) (split s).
Proof. apply split_go_nonempty. Qed.

Lemma split_blank s : blank s = true → split s = [].
Proof.
  unfold split. induction s as [|c s IH]; [done|]. simpl.
  intros [Hc Hs]%andb_prop. rewrite Hc. simpl. auto.
Qed.

(** The number of fields of [split_on] is one more than the number of
    separators. *)
Lemma split_on_length sep s :
  len (split_on sep s) = count sep s + 1.
Proof.
  unfold count. induction s as [|c s IH]; [done|]. simpl.
  rewrite (N.eqb_sym sep c).
  destruct (c =? sep)%N.
  - rewrite !len_cons, IH. lia.
  - destruct (split_on sep s) as [|p ps] eqn:E.
    + pose proof (len_nonneg (List.filter (N.eqb sep) s)).
      unfold len in IH at 1. simpl in IH. lia.
    + rewrite <- IH. by rewrite !len_cons.
Qed.

Lemma count_lstrip c s : count c (lstrip s) ≤ count c s.
Proof.
  unfold count. induction s as [|x s IH]; [done|]. simpl.
  destruct (isspace x); [|done].
  destruct (c =? x)%N; [rewrite len_cons|]; lia.
Qed.

Lemma count_rev c s : count c (rev s) = count c s.
Proof.
  unfold count, len. f_equal.
  induction s as [|x s IH]; [done|]. simpl.
  rewrite List.filter_app, length_app, IH. simpl.
  destruct (c =? x)%N; simpl; lia.
Qed.

Lemma count_strip c s : count c (strip s) ≤ count c s.
Proof.
  unfold strip, rstrip. rewrite count_rev.
  etrans; [apply count_lstrip|]. rewrite count_rev. apply count_lstrip.
Qed.

(** ** The fast filters return a verdict on every string *)

Section FilterFacts.
Context {UD : UnicodeData}.

Lemma starts_with_capital_eq s :
  starts_with_capital s =
  Ok (match lstrip s with [] => false | c :: _ => isupper c end).
Proof.
  unfold starts_with_capital. destruct (lstrip s) as [|c r]; [done|].
  simpl truthy. cbv iota. by rewrite getitem_first.
Qed.

Lemma ends_with_punctuation_eq s :
  ends_with_punctuation s =
  Ok (match last (rstrip s) with None => false | Some c => end_punct c end).
Proof.
  unfold ends_with_punctuation.
  destruct (truthy (rstrip s)) eqn:E.
  - destruct (getitem_last_truthy _ E) as (c & -> & ->). done.
  - destruct (rstrip s); [done | discriminate].
Qed.

Lemma only_one_sentence_eq s :
  only_one_sentence s =
  Ok (match last (rstrip s) with
      | None => false
      | Some c => (count 46%N (rstrip s) + count 63%N (rstrip s) =? 1)
                  && end_punct c
      end).
Proof.
  unfold only_one_sentence.
  destruct (truthy (rstrip s)) eqn:E; simpl.
  - destruct (getitem_last_truthy _ E) as (c & -> & ->).
    by destruct (_ =? 1).
  - destruct (rstrip s); [done | discriminate].
Qed.

Lemma effective_word_count_eq words :
  effective_word_count words =
  len words + len (List.filter (λ w, 10 <? len w) words).
Proof.
  unfold effective_word_count.
  enough (∀ a, foldl (λ acc w, acc + (if 10 <? len w then 2 else 1)) a words
               = a + len words + len (List.filter (λ w, 10 <? len w) words))
    as -> by done.
  induction words as [|w ws IH]; intros a; simpl.
  - unfold len. simpl. lia.
  - rewrite IH, len_cons. destruct (10 <? len w); [rewrite len_cons|]; lia.
Qed.

Lemma Zleb_ext (a b c d : Z) :
  (a ≤ b ↔ c ≤ d) → (a <=? b) = (c <=? d).
Proof.
  intros H. destruct (Z.leb_spec a b), (Z.leb_spec c d); (done || lia).
Qed.

Lemma reading_time_filter_eq s :
  reading_time_filter s =
  Ok ((4 <=? effective_word_count (split s))
      && (effective_word_count (split s) <=? 11)).
Proof.
  unfold reading_time_filter, reading_time_filter_with.
  generalize (effective_word_count (split s)). intros n.
  change (Qeq_bool (inject_Z 100 / 60) 0) with false. cbv iota.
  unfold mret, result_ret. f_equal.
  unfold Qle_bool. simpl.
  f_equal.
  - apply Zleb_ext. lia.
  - apply Zleb_ext. lia.
Qed.

Lemma no_capital_word_spec words :
  Forall (λ w, w ≠ []) words →
  no_capital_word words =
  Ok (forallb (λ w, match w with c :: _ => negb (isupper c) | [] => true end)
        words).
Proof.
  induction 1 as [|w ws Hw _ IH]; [done|]. simpl.
  destruct w as [|c w]; [done|]. rewrite getitem_first, bind_Ok.
  destruct (isupper c); [done|]. apply IH.
Qed.

Lemma basic_proper_noun_filter_eq s :
  basic_proper_noun_filter s =
  Ok (forallb (λ w, match w with c :: _ => negb (isupper c) | [] => true end)
        (tail (split s))).
Proof.
  unfold basic_proper_noun_filter.
  pose proof (split_nonempty s) as Hne.
  destruct (split s) as [|w0 [|w1 ws]] eqn:E; [done..|].
  replace (1 <? len (w0 :: w1 :: ws)) with true
    by (rewrite !len_cons; pose proof (len_nonneg ws); lia).
  replace (slice_from (w0 :: w1 :: ws) 1) with (w1 :: ws).
  { apply no_capital_word_spec. by inversion Hne. }
  unfold slice_from, clamp. rewrite !len_cons. pose proof (len_nonneg ws).
  change (1 <? 0) with false. cbv iota.
  by replace (Z.min 1 (len ws + 1 + 1)) with 1 by lia.
Qed.

Lemma fast_filters_total : Forall (λ p, total p.1) fast_filters.
Proof.
  repeat constructor; intros s; simpl.
  - rewrite starts_with_capital_eq; eauto.
  - unfold has_no_parentheses; eauto.
  - rewrite ends_with_punctuation_eq; eauto.
  - rewrite only_one_sentence_eq; eauto.
  - unfold has_no_numbers; eauto.
  - unfold no_special_characters; eauto.
  - rewrite reading_time_filter_eq; eauto.
  - unfold max_word_count_filter, max_word_count_filter_with; eauto.
  - rewrite basic_proper_noun_filter_eq; eauto.
Qed.

Lemma create_proper_noun_filter_total nlp :
  total (create_proper_noun_filter nlp).
Proof. intros s. unfold create_proper_noun_filter. eauto. Qed.

End FilterFacts.

(** ** Loops *)

Lemma for_each_app {S A} (body : S → A → result S) (l1 l2 : list A) st :
  for_each body (l1 ++ l2) st = for_each body l1 st ≫= for_each body l2.
Proof.
  revert st. induction l1 as [|x l1 IH]; intros st; simpl; [done|].
  destruct (body st x) as [st'|e]; simpl; [apply IH | done].
Qed.

(** An invariant over the elements visited so far, kept by a body that
    does not raise, holds after the loop. *)
Lemma for_each_inv {S A} (body : S → A → result S)
    (P : list A → S → Prop) (l : list A) (st0 : S) :
  P [] st0 →
  (∀ pre x st, P pre st → ∃ st', body st x = Ok st' ∧ P (pre ++ [x]) st') →
  ∃ st', for_each body l st0 = Ok st' ∧ P l st'.
Proof.
  intros H0 Hstep.
  enough (∀ pre st, P pre st →
            ∃ st', for_each body l st = Ok st' ∧ P (pre ++ l) st') as H
    by exact (H [] st0 H0).
  induction l as [|x l IH]; intros pre st HP; simpl.
  - exists st. by rewrite app_nil_r.
  - destruct (Hstep pre x st HP) as (st1 & -> & HP1). rewrite bind_Ok.
    destruct (IH _ _ HP1) as (st' & Hrun & HP').
    exists st'. split; [done|]. by rewrite <- app_assoc in HP'.
Qed.

(** ** Rejection counters *)

Lemma total_rejected_increment (d : gmap string Z) key v :
  d !! key = Some v →
  total_rejected (<[key := v + 1]> d) = total_rejected d + 1.
Proof.
  intros H. unfold total_rejected.
  rewrite <- (insert_delete_eq d key (v + 1)).
  rewrite map_fold_insert_L; [|intros; lia|apply lookup_delete_eq].
  rewrite <- (insert_id d key v H) at 2.
  rewrite <- (insert_delete_eq d key v).
  rewrite map_fold_insert_L; [lia|intros; lia|apply lookup_delete_eq].
Qed.

Lemma increment_Some (d : gmap string Z) key v :
  d !! key = Some v → increment d key = Ok (<[key := v + 1]> d).
Proof. intros H. unfold increment. by rewrite H. Qed.

Lemma seeded_insert (d : gmap string Z) key v :
  seeded d → seeded (<[key := v]> d).
Proof.
  unfold seeded. intros H. eapply Forall_impl; [exact H|].
  intros name Hn. simpl. rewrite lookup_insert. by case_decide.
Qed.

Lemma dom_increment (d : gmap string Z) key v w :
  d !! key = Some v → dom (<[key := w]> d) = dom d.
Proof. intros H. apply dom_insert_lookup_L. eauto. Qed.

(** ** The cascade over one sentence *)

Lemma apply_fast_filters_spec filters s (d : gmap string Z) :
  Forall (λ p, total p.1) filters →
  Forall (λ p, is_Some (d !! p.2)) filters →
  (Forall (λ p, p.1 s = Ok true) filters ∧
   apply_fast_filters filters s d = Ok (true, d) ∧
   evaluated filters s = filters.*2) ∨
  (∃ pre f name post v,
     filters = pre ++ (f, name) :: post ∧
     Forall (λ p, p.1 s = Ok true) pre ∧ f s = Ok false ∧
     d !! name = Some v ∧
     apply_fast_filters filters s d = Ok (false, <[name := v + 1]> d) ∧
     evaluated filters s = pre.*2 ++ [name]).
Proof.
  induction filters as [|[f name] rest IH]; intros Htot Hkeys.
  - left. by repeat split.
  - inversion_clear Htot as [|? ? Hf Hrest].
    inversion_clear Hkeys as [|? ? [v Hv] Hkrest].
    destruct (Hf s) as [b Hb]. simpl in Hb, Hv. destruct b.
    + destruct (IH Hrest Hkrest) as
        [(Hall & Hrun & Hev)
        |(pre & g & n & post & w & -> & Hpre & Hg & Hw & Hrun & Hev)].
      * left. simpl. rewrite Hb. repeat split; [by constructor|done|].
        by rewrite Hev.
      * right. exists ((f, name) :: pre), g, n, post, w. simpl.
        rewrite Hb. repeat split; try done; [by constructor|].
        by rewrite Hev.
    + right. exists [], f, name, rest, v. simpl. rewrite Hb. simpl.
      rewrite (increment_Some _ _ _ Hv). by repeat split.
Qed.

(** ** The first pass *)

Lemma getitem_second {A} (a b : A) (l : list A) :
  getitem (a :: b :: l) 1 = Ok b.
Proof.
  unfold getitem. rewrite !len_cons. pose proof (len_nonneg l).
  change (1 <? 0) with false. cbv iota. simpl.
  destruct (len l + 1 + 1 <=? 1) eqn:E; [lia | done].
Qed.

Lemma sentence_of_None_iff line :
  sentence_of line = None ↔
  strip line = [] ∨ len (split_on 9%N (strip line)) < 2.
Proof.
  unfold sentence_of. destruct (strip line) as [|c l] eqn:E; simpl truthy.
  { split; auto. }
  cbv iota. destruct (split_on 9%N (c :: l)) as [|a [|b r]] eqn:Es.
  - split; [intros _; right; done | done].
  - split; [intros _; right; done | done].
  - split; [done|]. intros [?|H]; [done|].
    rewrite !len_cons in H. pose proof (len_nonneg r). lia.
Qed.

Section FastPass.
Context {UD : UnicodeData}.

Lemma fast_filters_names : fast_filters.*2 = filter_names.
Proof. reflexivity. Qed.

Lemma seeded_fast (d : gmap string Z) :
  seeded d → Forall (λ p, is_Some (d !! p.2)) fast_filters.
Proof.
  unfold seeded, counter_names. rewrite Forall_app. intros [H _].
  apply (Forall_fmap snd (λ name, is_Some (d !! name))). by rewrite fast_filters_names.
Qed.

Lemma fast_pass_body_skipped st line :
  sentence_of line = None → fast_pass_body st line = Ok st.
Proof.
  unfold sentence_of, fast_pass_body.
  destruct (truthy (strip line)); [|done]. simpl.
  by destruct (split_on 9%N (strip line)) as [|a [|b r]].
Qed.

Lemma fast_pass_body_counted st line s :
  sentence_of line = Some s →
  fast_pass_body st line =
  apply_fast_filters fast_filters s (filter_fail_count st) ≫=
    λ '(passed_all_fast, fail_count),
      mret {| filter_fail_count := fail_count;
              survivors := if passed_all_fast : bool
                           then survivors st ++ [s] else survivors st;
              total_lines := total_lines st + 1 |}.
Proof.
  unfold sentence_of, fast_pass_body.
  destruct (truthy (strip line)); [|done]. simpl.
  destruct (split_on 9%N (strip line)) as [|a [|b r]]; [done..|].
  intros [= <-].
  replace (len (a :: b :: r) <? 2) with false
    by (rewrite !len_cons; pose proof (len_nonneg r); lia).
  by rewrite getitem_second, bind_Ok.
Qed.

Lemma passes_fast_all s :
  Forall (λ p, p.1 s = Ok true) fast_filters → passes_fast s = true.
Proof.
  unfold passes_fast. generalize fast_filters.
  induction 1 as [|p l Hp _ IH]; [done|]. simpl.
  unfold accepts at 1. by rewrite Hp.
Qed.

Lemma passes_fast_reject pre f name post s :
  fast_filters = pre ++ (f, name) :: post → f s = Ok false →
  passes_fast s = false.
Proof.
  unfold passes_fast. intros -> Hf. rewrite forallb_app. simpl.
  unfold accepts at 2. rewrite Hf. simpl. apply andb_false_r.
Qed.

(** What one counted line does to the variables of the pass. *)
Lemma fast_pass_body_spec st line s :
  sentence_of line = Some s →
  seeded (filter_fail_count st) →
  ∃ d',
    fast_pass_body st line =
      Ok {| filter_fail_count := d';
            survivors := if passes_fast s then survivors st ++ [s]
                         else survivors st;
            total_lines := total_lines st + 1 |} ∧
    seeded d' ∧ dom d' = dom (filter_fail_count st) ∧
    total_rejected d' =
      total_rejected (filter_fail_count st)
      + (if passes_fast s then 0 else 1).
Proof.
  intros Hs Hseed. rewrite (fast_pass_body_counted _ _ _ Hs).
  destruct (apply_fast_filters_spec fast_filters s (filter_fail_count st)
              fast_filters_total (seeded_fast _ Hseed))
    as [(Hall & -> & _)
       |(pre & f & name & post & v & Hsplit & Hpre & Hf & Hv & -> & _)].
  - rewrite bind_Ok, (passes_fast_all _ Hall).
    eexists. split; [done|]. repeat split; [done|lia].
  - rewrite bind_Ok, (passes_fast_reject _ _ _ _ _ Hsplit Hf).
    eexists. split; [done|]. repeat split.
    + by apply seeded_insert.
    + by eapply dom_increment.
    + by apply total_rejected_increment.
Qed.

End FastPass.

Section Passes.
Context {UD : UnicodeData}.

Lemma counter_names_NoDup : NoDup counter_names.
Proof. compute_done. Qed.

Lemma initial_fail_count_eq :
  initial_fail_count =
  foldr (λ name d, <[name := 0]> d) ∅ (rev counter_names).
Proof. reflexivity. Qed.

Lemma initial_seeded : seeded initial_fail_count.
Proof.
  rewrite initial_fail_count_eq. unfold seeded.
  repeat (apply Forall_cons_2; [vm_compute; eauto|]). apply Forall_nil_2.
Qed.

Lemma initial_dom : dom initial_fail_count = list_to_set counter_names.
Proof.
  rewrite initial_fail_count_eq. simpl. rewrite !dom_insert_L, dom_empty_L.
  set_solver.
Qed.

Lemma initial_total : total_rejected initial_fail_count = 0.
Proof. rewrite initial_fail_count_eq. by vm_compute. Qed.

Lemma fast_pass_spec lines :
  ∃ st, fast_pass lines = Ok st ∧ fast_inv lines st.
Proof.
  apply for_each_inv.
  - split; [apply initial_seeded|]. split; [apply initial_dom|].
    simpl. by rewrite initial_total.
  - intros pre line st (Hseed & Hdom & Hsurv & Htot & Hsum).
    unfold fast_inv, input_sentences. rewrite omap_app.
    cbn [omap list_omap].
    destruct (sentence_of line) as [s|] eqn:Hs.
    + destruct (fast_pass_body_spec st line s Hs Hseed)
        as (d' & -> & Hseed' & Hdom' & Hsum').
      eexists. split; [done|]. cbn [filter_fail_count survivors total_lines].
      rewrite List.filter_app, !len_app.
      change (List.filter passes_fast [s])
        with (if passes_fast s then [s] else []).
      change (len [s]) with 1.
      split; [done|]. split; [congruence|]. split; [|split].
      * rewrite Hsurv. destruct (passes_fast s); [done|by rewrite app_nil_r].
      * by rewrite Htot.
      * rewrite Hsum'. destruct (passes_fast s); rewrite ?len_app;
          change (len [s]) with 1; lia.
    + rewrite (fast_pass_body_skipped _ _ Hs). exists st.
      rewrite app_nil_r. by repeat split.
Qed.

End Passes.

(** ** The second pass *)

Lemma slow_pass_spec (f : str → result bool) survivors (d : gmap string Z) :
  total f → is_Some (d !! "proper_noun_filter"%string) →
  ∃ d',
    slow_pass f survivors d = Ok (List.filter (accepts f) survivors, d') ∧
    total_rejected d' + len (List.filter (accepts f) survivors)
      = total_rejected d + len survivors ∧
    dom d' = dom d ∧
    (∀ key, key ≠ "proper_noun_filter"%string → d' !! key = d !! key).
Proof.
  intros Hf Hpn.
  destruct (for_each_inv (slow_pass_body f)
    (λ pre st,
       st.1 = List.filter (accepts f) pre ∧
       total_rejected st.2 + len st.1 = total_rejected d + len pre ∧
       dom st.2 = dom d ∧
       is_Some (st.2 !! "proper_noun_filter"%string) ∧
       ∀ key, key ≠ "proper_noun_filter"%string → st.2 !! key = d !! key)
    survivors ([], d)) as ([final d'] & Hrun & Hfin & Hsum & Hdom & _ & Hkeys).
  - simpl. split_and!; [done|lia|done|done|done].
  - intros pre s [final d1] (Hfin & Hsum & Hdom & [v Hv] & Hkeys).
    simpl in *. rewrite List.filter_app, len_app. simpl.
    replace (accepts f s) with (match f s with Ok true => true | _ => false end)
      by done.
    destruct (Hf s) as [b ->]. rewrite bind_Ok.
    change (len [s]) with 1. destruct b.
    + eexists. split; [done|]. simpl. rewrite len_app. change (len [s]) with 1.
      split_and!; [by rewrite Hfin|lia|done|eauto|done].
    + rewrite (increment_Some _ _ _ Hv), bind_Ok.
      eexists. split; [done|]. simpl.
      rewrite (total_rejected_increment _ _ _ Hv), app_nil_r.
      split_and!; [done|lia|by erewrite dom_increment| |].
      * rewrite lookup_insert_eq. eauto.
      * intros key Hkey. rewrite lookup_insert_ne; auto.
  - exists d'. simpl in *. subst final. by split_and!.
Qed.

Section FilterPasses.
Context {UD : UnicodeData} (nlp : str → list Token).

Lemma seeded_proper_noun (d : gmap string Z) :
  seeded d → is_Some (d !! "proper_noun_filter"%string).
Proof.
  unfold seeded, counter_names. rewrite Forall_app, Forall_singleton.
  by intros [_ H].
Qed.

Lemma filter_filter {A} (f g : A → bool) (l : list A) :
  List.filter g (List.filter f l) = List.filter (λ x, f x && g x) l.
Proof.
  induction l as [|x l IH]; [done|]. simpl.
  destruct (f x); simpl; [|done]. destruct (g x); by rewrite IH.
Qed.

Lemma filter_passes_spec lines :
  ∃ d,
    filter_passes nlp lines =
      Ok (d, len (input_sentences lines),
          List.filter (kept nlp) (input_sentences lines)) ∧
    len (input_sentences lines)
      = total_rejected d + len (List.filter (kept nlp) (input_sentences lines)) ∧
    dom d = list_to_set counter_names.
Proof.
  unfold filter_passes.
  destruct (fast_pass_spec lines)
    as (st & -> & Hseed & Hdom & Hsurv & Htot & Hsum).
  rewrite bind_Ok.
  destruct (slow_pass_spec (create_proper_noun_filter nlp) (survivors st)
              (filter_fail_count st) (create_proper_noun_filter_total nlp)
              (seeded_proper_noun _ Hseed))
    as (d' & -> & Hsum' & Hdom' & _).
  rewrite bind_Ok. exists d'.
  rewrite Hsurv, filter_filter in *. fold (kept nlp) in *.
  rewrite Htot. repeat split; [lia|congruence].
Qed.

End FilterPasses.

(** ** The chunked writer *)

Lemma range_up_step i stop p :
  range_up i stop p =
  if i <? stop then i :: range_up (i + Z.pos p) stop p else [].
Proof.
  rewrite (range_up_equation_1 i stop p). unfold range_up_unfold_clause_1.
  destruct (Z_lt_dec i stop) as [H|H].
  - by replace (i <? stop) with true by lia.
  - by replace (i <? stop) with false by lia.
Qed.

Lemma range_up_lookup i stop p (k : nat) :
  range_up i stop p !! k =
  if i + Z.of_nat k * Z.pos p <? stop
  then Some (i + Z.of_nat k * Z.pos p) else None.
Proof.
  revert i. induction k as [|k IH]; intros i; rewrite range_up_step.
  - replace (i + Z.of_nat 0 * Z.pos p) with i by lia.
    by destruct (i <? stop).
  - destruct (i <? stop) eqn:E; simpl.
    + rewrite IH.
      by replace (i + Z.pos p + Z.of_nat k * Z.pos p)
        with (i + Z.of_nat (S k) * Z.pos p) by lia.
    + apply Z.ltb_ge in E.
      assert (0 ≤ Z.of_nat (S k) * Z.pos p) by (apply Z.mul_nonneg_nonneg; lia).
      generalize dependent (Z.of_nat (S k) * Z.pos p). intros x Hx.
      by replace (i + x <? stop) with false by lia.
Qed.

(** The loop over [range(0, n, step)] runs [ceil(n / step)] times. *)
Lemma range_up_len n p :
  0 ≤ n →
  (len (range_up 0 n p) - 1) * Z.pos p < n ≤ len (range_up 0 n p) * Z.pos p.
Proof.
  intros Hn. unfold len.
  pose proof (range_up_lookup 0 n p (length (range_up 0 n p))) as Hend.
  rewrite lookup_ge_None_2 in Hend by lia.
  destruct (0 + _ <? n) eqn:E in Hend; [done|]. split; [|lia].
  destruct (length (range_up 0 n p)) as [|k] eqn:El; [lia|].
  pose proof (range_up_lookup 0 n p k) as Hk.
  destruct (lookup_lt_is_Some_2 (range_up 0 n p) k) as [x Hx]; [lia|].
  rewrite Hx in Hk. destruct (0 + _ <? n) eqn:E' in Hk; [lia|done].
Qed.

Lemma ceiling_unique (n k : Z) (p : positive) :
  (k - 1) * Z.pos p < n ≤ k * Z.pos p →
  k = Qceiling (inject_Z n / inject_Z (Z.pos p)).
Proof.
  intros H. unfold Qceiling, Qfloor, Qdiv, Qmult, Qinv, inject_Z. simpl.
  rewrite Z.mul_1_r. change (1 * p)%positive with p.
  enough ((- n) / Z.pos p = - k) as -> by lia.
  symmetry. apply (Z.div_unique_pos _ _ _ (k * Z.pos p - n)); lia.
Qed.

Lemma slice_chunk {A} (l : list A) i cs :
  0 ≤ i → 0 < cs →
  slice l i (i + cs) = take (Z.to_nat cs) (drop (Z.to_nat i) l).
Proof.
  intros Hi Hcs. unfold slice, clamp. pose proof (len_nonneg l) as Hl.
  replace (i <? 0) with false by lia.
  replace (i + cs <? 0) with false by lia.
  destruct (Z.le_gt_cases (len l) i) as [Hge|Hlt].
  - rewrite !drop_ge by (unfold len in *; lia). by rewrite !take_nil.
  - replace (Z.to_nat (Z.min i (len l))) with (Z.to_nat i) by lia.
    destruct (Z.le_gt_cases (i + cs) (len l)).
    + f_equal. lia.
    + rewrite !take_ge; [done|rewrite length_drop; unfold len in *; lia..].
Qed.

Lemma chunks_concat {A} (l : list A) p i :
  0 ≤ i →
  concat ((λ j, slice l j (j + Z.pos p)) <$> range_up i (len l) p)
  = drop (Z.to_nat i) l.
Proof.
  remember (Z.to_nat (len l - i)) as m eqn:Hm. revert i Hm.
  induction m as [m IH] using lt_wf_ind. intros i Hm Hi.
  rewrite range_up_step. destruct (i <? len l) eqn:E.
  - rewrite fmap_cons. simpl. rewrite (IH (Z.to_nat (len l - (i + Z.pos p))));
      [|lia..].
    rewrite slice_chunk by lia.
    replace (Z.to_nat (i + Z.pos p)) with (Z.to_nat i + Z.to_nat (Z.pos p))%nat
      by lia.
    rewrite <- drop_drop. apply take_drop.
  - simpl. rewrite drop_ge; [done|]. unfold len in *. lia.
Qed.

Section Writer.
Context (final_pass : list str) (output_folder : str)
        (single_sentences : bool) (CHUNK_SIZE : Z).

Lemma write_fold indices count files :
  foldl (write_body final_pass output_folder single_sentences CHUNK_SIZE)
    (count, files) indices
  = (count + len indices,
     files ++ imap (λ k i, file_at final_pass output_folder single_sentences
                          CHUNK_SIZE (count + Z.of_nat k) i) indices).
Proof.
  revert count files. induction indices as [|i indices IH]; intros count files.
  - simpl. rewrite app_nil_r. f_equal. unfold len. simpl. lia.
  - simpl. rewrite IH, len_cons, <- app_assoc. f_equal; [lia|].
    f_equal. simpl. f_equal.
    + unfold file_at. by rewrite Z.add_0_r.
    + apply imap_ext. intros k j _. simpl. f_equal. lia.
Qed.

End Writer.

Lemma lit_inj a b : lit a = lit b → a = b.
Proof.
  unfold lit. intros H.
  rewrite <- (string_of_list_ascii_of_string a),
          <- (string_of_list_ascii_of_string b).
  f_equal. revert H. generalize (list_ascii_of_string a) as x.
  generalize (list_ascii_of_string b) as y. intros y x. revert y.
  induction x as [|c x IH]; intros [|c' y] H; try done.
  injection H as Hc Hxy. f_equal; [|by apply IH].
  by rewrite <- (ascii_N_embedding c), <- (ascii_N_embedding c'), Hc.
Qed.

Lemma str_of_int_inj a b : str_of_int a = str_of_int b → a = b.
Proof.
  unfold str_of_int. intros H%lit_inj. apply DecimalZ.to_int_inj.
  pose proof (NilEmpty.isi (Z.to_int a)) as Ha.
  rewrite H, NilEmpty.isi in Ha. by injection Ha.
Qed.

Lemma path_join_inj folder a b : path_join folder a = path_join folder b → a = b.
Proof.
  unfold path_join. destruct (last folder) as [c|]; [|done].
  destruct (c =? 47)%N; intros H%app_inv_head; [done|by injection H].
Qed.

Lemma chunk_filename_inj folder a b :
  path_join folder (lit "output_" ++ str_of_int a ++ lit ".tsv")
  = path_join folder (lit "output_" ++ str_of_int b ++ lit ".tsv") →
  a = b.
Proof.
  intros H%path_join_inj%app_inv_head%app_inv_tail. by apply str_of_int_inj.
Qed.

Lemma imap_chunk final_pass output_folder single_sentences CHUNK_SIZE
    count indices :
  chunk <$> imap (λ (k : nat) i,
               file_at final_pass output_folder single_sentences CHUNK_SIZE
                 (count + Z.of_nat k) i) indices
  = (λ j, slice final_pass j (j + CHUNK_SIZE)) <$> indices.
Proof.
  apply list_eq. intros k.
  rewrite list_lookup_fmap, list_lookup_imap, list_lookup_fmap.
  by destruct (indices !! k).
Qed.

(** C2: for a positive chunk size the writer produces
    ceil(total_final / chunk_size) files; the chunk of file k is the
    slice of chunk_size sentences starting at k * chunk_size, non-empty
    and full except possibly for the last one, and the chunks
    concatenated in order are the final accepted sequence. *)
Theorem chunked_writer_complete (final_pass : list str) (output_folder : str)
    (single_sentences : bool) (chunk_size : Z) :
  0 < chunk_size →
  ∃ count files,
    write_chunks final_pass output_folder single_sentences chunk_size
      = Ok (count, files) ∧
    count = Qceiling (inject_Z (len final_pass) / inject_Z chunk_size) ∧
    len files = count ∧
    concat (chunk <$> files) = final_pass ∧
    NoDup (chunk_filename <$> files) ∧
    ∀ (k : nat) f, files !! k = Some f →
      chunk_filename f
        = path_join output_folder
            (lit "output_" ++ str_of_int (Z.of_nat k + 1) ++ lit ".tsv") ∧
      text f = concat (output_line single_sentences <$> chunk f) ∧
      chunk f = take (Z.to_nat chunk_size)
                  (drop (k * Z.to_nat chunk_size) final_pass) ∧
      0 < len (chunk f) ≤ chunk_size ∧
      (Z.of_nat k + 1 < count → len (chunk f) = chunk_size).
Proof.
  intros Hcs. destruct chunk_size as [|p|p]; [lia| |lia].
  unfold write_chunks, range. rewrite bind_Ok, write_fold.
  pose proof (range_up_len (len final_pass) p (len_nonneg _)) as Hlen.
  set (indices := range_up 0 (len final_pass) p) in *.
  eexists _, _. split; [done|]. simpl. split_and!.
  - by apply ceiling_unique.
  - unfold len. by rewrite length_imap.
  - rewrite imap_chunk. unfold indices.
    by rewrite (chunks_concat final_pass p 0).
  - apply NoDup_alt. intros k1 k2 name.
    rewrite !list_lookup_fmap, !list_lookup_imap.
    destruct (indices !! k1) as [i1|]; [|done].
    destruct (indices !! k2) as [i2|]; [|done]. simpl.
    intros [= <-] [= H%chunk_filename_inj]. lia.
  - intros k f. rewrite list_lookup_imap.
    destruct (indices !! k) as [i|] eqn:Hi; [|done]. intros [= <-].
    split; [done|]. split; [done|].
    unfold indices in Hi. rewrite range_up_lookup in Hi.
    destruct (0 + Z.of_nat k * Z.pos p <? len final_pass) eqn:E; [|done].
    injection Hi as <-. simpl.
    assert (0 ≤ Z.of_nat k * Z.pos p) as Hk
      by (apply Z.mul_nonneg_nonneg; lia).
    assert (Z.to_nat (0 + Z.of_nat k * Z.pos p) = (k * Pos.to_nat p)%nat)
      as Hnat by lia.
    rewrite slice_chunk, Hnat by lia.
    replace (Z.to_nat (Z.pos p)) with (Pos.to_nat p) by lia.
    split; [done|].
    unfold len in *. rewrite length_take, length_drop.
    split; [lia|]. intros Hlast.
    assert ((Z.of_nat k + 1) * Z.pos p
            ≤ (Z.of_nat (length indices) - 1) * Z.pos p)
      by (apply Z.mul_le_mono_nonneg_r; lia).
    lia.
Qed.

(** A run with five final sentences and a chunk size of two. *)
Lemma chunked_writer_complete_witness :
  ∃ count files,
    write_chunks [lit "a"; lit "b"; lit "c"; lit "d"; lit "e"] (lit "out")
      true 2 = Ok (count, files) ∧
    count = Qceiling (inject_Z 5 / inject_Z 2) ∧
    len files = count ∧
    concat (chunk <$> files) = [lit "a"; lit "b"; lit "c"; lit "d"; lit "e"] ∧
    NoDup (chunk_filename <$> files) ∧
    ∀ (k : nat) f, files !! k = Some f →
      chunk_filename f
        = path_join (lit "out")
            (lit "output_" ++ str_of_int (Z.of_nat k + 1) ++ lit ".tsv") ∧
      text f = concat (output_line true <$> chunk f) ∧
      chunk f = take (Z.to_nat 2)
                  (drop (k * Z.to_nat 2)
                     [lit "a"; lit "b"; lit "c"; lit "d"; lit "e"]) ∧
      0 < len (chunk f) ≤ 2 ∧
      (Z.of_nat k + 1 < count → len (chunk f) = 2).
Proof.
  apply (chunked_writer_complete
           [lit "a"; lit "b"; lit "c"; lit "d"; lit "e"] (lit "out") true 2).
  lia.
Defined.

(** ** Conservation and order *)

Lemma total_rejected_names (names : list string) (d : gmap string Z) :
  NoDup names → dom d = list_to_set names →
  total_rejected d = foldr (λ name acc, counter d name + acc) 0 names.
Proof.
  revert d. induction names as [|a names IH]; intros d Hnd Hdom.
  - simpl in *. apply dom_empty_inv_L in Hdom as ->. done.
  - inversion_clear Hnd as [|? ? Ha Hnd'].
    assert (is_Some (d !! a)) as [v Hv].
    { apply elem_of_dom. rewrite Hdom. apply elem_of_list_to_set. by left. }
    simpl. unfold counter at 1. rewrite Hv. simpl.
    replace (foldr (λ name acc, counter d name + acc) 0 names)
      with (foldr (λ name acc, counter (delete a d) name + acc) 0 names).
    + rewrite <- IH; [|done|].
      * unfold total_rejected. rewrite <- (insert_id d a v Hv) at 1.
        rewrite <- insert_delete_eq.
        rewrite map_fold_insert_L; [done|intros; lia|apply lookup_delete_eq].
      * rewrite dom_delete_L, Hdom. apply set_eq. intros x.
        rewrite elem_of_difference, !elem_of_list_to_set, elem_of_cons,
          elem_of_singleton.
        split; [by intros [[?|?] ?]|].
        intros Hx. split; [by right|]. by intros ->.
    + clear IH Hdom Hnd'. induction names as [|b names IHn]; [done|].
      simpl. apply not_elem_of_cons in Ha as [Hab Ha].
      rewrite IHn by done. unfold counter at 1 3.
      by rewrite lookup_delete_ne.
Qed.

Lemma sublist_filter_bool {A} (f : A → bool) (l : list A) :
  sublist (List.filter f l) l.
Proof.
  induction l as [|x l IH]; simpl; [constructor|].
  destruct (f x); by constructor.
Qed.

Section PipelineFacts.
Context {UD : UnicodeData} (nlp : str → list Token).

(** C9: every counted line is either charged to exactly one of the ten
    counters or finally accepted, so after both passes total_lines is
    the sum of the ten counters plus total_final; the dictionary has no
    other key. *)
Theorem conservation_of_records (lines : list str) :
  ∃ d total_lines final_pass,
    filter_passes nlp lines = Ok (d, total_lines, final_pass) ∧
    dom d = list_to_set counter_names ∧
    total_rejected d = sum_counters d ∧
    total_lines = sum_counters d + len final_pass ∧
    ∀ output_folder single_sentences chunk_size r,
      main nlp lines output_folder single_sentences chunk_size = Ok r →
      lines_processed r = sum_counters (rejected r) + total_final r.
Proof.
  destruct (filter_passes_spec nlp lines) as (d & Hrun & Hsum & Hdom).
  assert (total_rejected d = sum_counters d) as Htot
    by (apply total_rejected_names; [apply counter_names_NoDup|done]).
  eexists _, _, _. split; [exact Hrun|]. split_and!; [done|done|lia|].
  intros folder single cs r. unfold main. rewrite Hrun, bind_Ok.
  destruct (write_chunks _ folder single cs) as [[count files]|e];
    [|done].
  rewrite bind_Ok. intros [= <-]. simpl. lia.
Qed.

(** C3: the fast pass keeps a subsequence of the sentences read off the
    input lines, the second pass keeps a subsequence of those, and so
    the final accepted sequence is a subsequence of the input sentences
    in their original order. *)
Theorem order_preserved (lines : list str) :
  ∃ st final_pass d,
    fast_pass lines = Ok st ∧
    sublist (survivors st) (input_sentences lines) ∧
    slow_pass (create_proper_noun_filter nlp) (survivors st)
      (filter_fail_count st) = Ok (final_pass, d) ∧
    sublist final_pass (survivors st) ∧
    filter_passes nlp lines = Ok (d, total_lines st, final_pass) ∧
    sublist final_pass (input_sentences lines).
Proof.
  destruct (fast_pass_spec lines)
    as (st & Hfast & Hseed & Hdom & Hsurv & Htot & Hsum).
  destruct (slow_pass_spec (create_proper_noun_filter nlp) (survivors st)
              (filter_fail_count st) (create_proper_noun_filter_total nlp)
              (seeded_proper_noun _ Hseed))
    as (d' & Hslow & _).
  assert (sublist (survivors st) (input_sentences lines)) as Hs1
    by (rewrite Hsurv; apply sublist_filter_bool).
  pose proof (sublist_filter_bool
                (accepts (create_proper_noun_filter nlp)) (survivors st))
    as Hs2.
  exists st, (List.filter (accepts (create_proper_noun_filter nlp))
                (survivors st)), d'.
  split_and!; [done|done|done|done| |by etrans].
  unfold filter_passes. by rewrite Hfast, bind_Ok, Hslow, bind_Ok.
Qed.

End PipelineFacts.

(** Three lines: one accepted, one rejected by a fast filter, one
    skipped. *)
Lemma conservation_of_records_witness :
  ∃ r,
    @main latin1 no_proper_nouns
      [lit "1" ++ tab ++ lit "Hallo der du der." ++ newline;
       lit "2" ++ tab ++ lit "Dette er Oslo." ++ newline;
       lit "no tab here" ++ newline]
      (lit "out") false 2 = Ok r ∧
    lines_processed r = sum_counters (rejected r) + total_final r.
Proof.
  eexists. split.
  - vm_compute. reflexivity.
  - destruct (@conservation_of_records latin1 no_proper_nouns
                [lit "1" ++ tab ++ lit "Hallo der du der." ++ newline;
                 lit "2" ++ tab ++ lit "Dette er Oslo." ++ newline;
                 lit "no tab here" ++ newline])
      as (d & total & final & _ & _ & _ & _ & H).
    apply (H (lit "out") false 2). vm_compute. reflexivity.
Defined.

(** ** Skipped lines and short-circuit attribution *)

Lemma blank_strip line : blank line = true → strip line = [].
Proof. intros H. unfold strip. by rewrite lstrip_blank. Qed.

Lemma few_columns_skipped line :
  blank line = true ∨ len (split_on 9%N line) < 2 → sentence_of line = None.
Proof.
  intros H. apply sentence_of_None_iff. destruct H as [H|H].
  - left. by apply blank_strip.
  - right. rewrite split_on_length in *.
    pose proof (count_strip 9%N line). lia.
Qed.

Section LineFacts.
Context {UD : UnicodeData}.

(** C6: a blank line, or a line with fewer than two tab-delimited
    columns, leaves total_lines, every rejection counter and the
    survivors as they are, and the run is the one of the input without
    that line; a line that does change total_lines has at least two
    columns and adds exactly one. *)
Theorem skipped_lines_not_counted (line : str) :
  (blank line = true ∨ len (split_on 9%N line) < 2 →
   (∀ st, fast_pass_body st line = Ok st) ∧
   (∀ before after, fast_pass (before ++ line :: after)
                    = fast_pass (before ++ after)) ∧
   (∀ nlp before after output_folder single_sentences chunk_size,
      main nlp (before ++ line :: after) output_folder single_sentences
        chunk_size
      = main nlp (before ++ after) output_folder single_sentences
          chunk_size)) ∧
  (∀ st st', fast_pass_body st line = Ok st' →
     total_lines st' ≠ total_lines st →
     2 ≤ len (split_on 9%N line) ∧ total_lines st' = total_lines st + 1).
Proof.
  split.
  - intros H%few_columns_skipped.
    assert (∀ before after, fast_pass (before ++ line :: after)
                            = fast_pass (before ++ after)) as Hpass.
    { intros before after. unfold fast_pass. rewrite !for_each_app.
      destruct (for_each fast_pass_body before _) as [st|e]; [|done].
      rewrite !bind_Ok. simpl.
      by rewrite (fast_pass_body_skipped _ _ H), bind_Ok. }
    split_and!; [intros st; by apply fast_pass_body_skipped|done|].
    intros. unfold main, filter_passes. by rewrite Hpass.
  - intros st st' Hrun Hne.
    destruct (sentence_of line) as [s|] eqn:Hs.
    + split.
      * destruct (Z.lt_ge_cases (len (split_on 9%N line)) 2) as [Hlt|]; [|done].
        rewrite few_columns_skipped in Hs; [done|by right].
      * rewrite (fast_pass_body_counted _ _ _ Hs) in Hrun.
        apply bind_inv in Hrun as ([passed d] & _ & [= <-]). done.
    + rewrite (fast_pass_body_skipped _ _ Hs) in Hrun.
      by injection Hrun as <-.
Qed.

End LineFacts.

(** A line whose second column is empty loses its tab to the first
    [strip] and is skipped as well. *)
Example empty_second_column_skipped :
  sentence_of (lit "1" ++ tab ++ newline) = None.
Proof. reflexivity. Qed.

(** A line without a tab, between two well-formed lines. *)
Lemma skipped_lines_not_counted_witness :
  (∀ st, @fast_pass_body latin1 st (lit "no tab here") = Ok st) ∧
  (∀ before after,
     @fast_pass latin1 (before ++ lit "no tab here" :: after)
     = @fast_pass latin1 (before ++ after)).
Proof.
  destruct (@skipped_lines_not_counted latin1 (lit "no tab here"))
    as [H _].
  destruct H as (H1 & H2 & _); [right; by vm_compute|]. by split.
Defined.

Lemma filter_length_Exists {A} (g : A → bool) (l : list A) :
  (1 ≤ length (List.filter g l))%nat → Exists (λ x, g x = true) l.
Proof.
  induction l as [|x l IH]; simpl; [lia|].
  destruct (g x) eqn:E; [by left|]. intros H. right. auto.
Qed.

Lemma filter_none {A} (g : A → bool) (l : list A) :
  Forall (λ x, g x = false) l → List.filter g l = [].
Proof. induction 1 as [|x l Hx _ IH]; simpl; [done|]. by rewrite Hx. Qed.

Lemma filter_names_NoDup : NoDup filter_names.
Proof. compute_done. Qed.

Section ShortCircuit.
Context {UD : UnicodeData}.

(** C1: a counted sentence that fails two or more fast filters is
    charged once, to the first filter of the cascade order that rejects
    it: that counter grows by one, every other counter keeps its value,
    the sum of the counters grows by one, the sentence is not a
    survivor, and the filters after the charged one, of which at least
    one would reject too, are not called: they are absent from the
    trace of calls, and the outcome is the same whatever stands behind
    the charged filter. *)
Theorem short_circuit_attribution (st : fast_state) (line s : str) :
  sentence_of line = Some s →
  seeded (filter_fail_count st) →
  (2 ≤ length (List.filter (λ p, rejects p.1 s) fast_filters))%nat →
  ∃ pre f name post v,
    fast_filters = pre ++ (f, name) :: post ∧
    Forall (λ p, p.1 s = Ok true) pre ∧ f s = Ok false ∧
    Exists (λ p, p.1 s = Ok false) post ∧
    filter_fail_count st !! name = Some v ∧
    fast_pass_body st line =
      Ok {| filter_fail_count := <[name := v + 1]> (filter_fail_count st);
            survivors := survivors st;
            total_lines := total_lines st + 1 |} ∧
    total_rejected (<[name := v + 1]> (filter_fail_count st))
      = total_rejected (filter_fail_count st) + 1 ∧
    (∀ key, key ≠ name →
       <[name := v + 1]> (filter_fail_count st) !! key
       = filter_fail_count st !! key) ∧
    evaluated fast_filters s = pre.*2 ++ [name] ∧
    Forall (λ p, p.2 ≠ name ∧ p.2 ∉ evaluated fast_filters s) post ∧
    (∀ post' d, apply_fast_filters (pre ++ (f, name) :: post') s d
                = apply_fast_filters (pre ++ [(f, name)]) s d).
Proof.
  intros Hs Hseed Htwo.
  destruct (apply_fast_filters_spec fast_filters s (filter_fail_count st)
              fast_filters_total (seeded_fast _ Hseed))
    as [(Hall & _ & _)
       |(pre & f & name & post & v & Hsplit & Hpre & Hf & Hv & Hrun & Hev)].
  { rewrite filter_none in Htwo; [simpl in Htwo; lia|].
    eapply Forall_impl; [exact Hall|]. intros p Hp. simpl.
    unfold rejects. by rewrite Hp. }
  exists pre, f, name, post, v.
  assert (Exists (λ p, p.1 s = Ok false) post) as Hlater.
  { rewrite Hsplit, List.filter_app in Htwo. simpl in Htwo.
    rewrite filter_none in Htwo.
    - unfold rejects at 1 in Htwo. rewrite Hf in Htwo. simpl in Htwo.
      apply Exists_impl with (λ p, rejects p.1 s = true).
      + apply filter_length_Exists. lia.
      + intros p. unfold rejects. by destruct (p.1 s) as [[]|].
    - eapply Forall_impl; [exact Hpre|]. intros p Hp. simpl.
      unfold rejects. by rewrite Hp. }
  pose proof filter_names_NoDup as Hnd.
  rewrite <- fast_filters_names, Hsplit, fmap_app, fmap_cons in Hnd.
  apply NoDup_app in Hnd as (_ & Hdisj & Hnd).
  apply NoDup_cons in Hnd as [Hname _].
  split_and!; try done.
  - rewrite (fast_pass_body_counted _ _ _ Hs), Hrun. done.
  - by apply total_rejected_increment.
  - intros key Hkey. by rewrite lookup_insert_ne.
  - apply Forall_forall. intros p Hp.
    assert (p.2 ∈ post.*2) as Hin by (apply list_elem_of_fmap; eauto).
    simpl in Hname, Hdisj.
    split; [intros Heq; by rewrite Heq in Hin|].
    rewrite Hev. intros [Hin'|Hin']%elem_of_app.
    + apply (Hdisj _ Hin'). by right.
    + apply list_elem_of_singleton in Hin'. by rewrite Hin' in Hin.
  - intros post' d. clear -Hpre Hf.
    induction Hpre as [|[g n] pre Hg _ IH]; simpl.
    + by rewrite Hf.
    + simpl in Hg. by rewrite Hg, !bind_Ok.
Qed.

End ShortCircuit.

(** A line whose sentence fails five fast filters, read into the
    freshly seeded dictionary. *)
Lemma short_circuit_attribution_witness :
  ∃ name v,
    @initial_fail_count latin1 !! name = Some v ∧
    @fast_pass_body latin1
      {| filter_fail_count := @initial_fail_count latin1;
         survivors := []; total_lines := 0 |}
      (lit "7" ++ [9%N] ++ lit "hei (test" ++ [10%N])
    = Ok {| filter_fail_count := <[name := v + 1]> (@initial_fail_count latin1);
            survivors := []; total_lines := 1 |}.
Proof.
  destruct (@short_circuit_attribution latin1
              {| filter_fail_count := @initial_fail_count latin1;
                 survivors := []; total_lines := 0 |}
              (lit "7" ++ [9%N] ++ lit "hei (test" ++ [10%N])
              (lit "hei (test"))
    as (pre & f & name & post & v & _ & _ & _ & _ & Hv & Hrun & _).
  - reflexivity.
  - repeat (apply Forall_cons_2; [vm_compute; eauto|]). apply Forall_nil_2.
  - vm_compute. lia.
  - exists name, v. split; [exact Hv | exact Hrun].
Defined.

(** ** Verdicts of single filters *)

(** C5: the reading-time filter returns on every sentence and accepts
    exactly when the effective word count (the tokens of [split], each
    token longer than 10 characters counted twice) divided by 100/60
    words per second lies in [2, 7], that is, when the count is
    between 4 and 11. *)
Theorem reading_time_band (s : str) :
  let n := len (split s) + len (List.filter (λ w, 10 <? len w) (split s)) in
  ∃ accept,
    reading_time_filter s = Ok accept ∧
    (accept = true ↔
     (inject_Z 2 <= inject_Z n / (inject_Z 100 / 60)
      ∧ inject_Z n / (inject_Z 100 / 60) <= inject_Z 7)%Q) ∧
    (accept = true ↔ 4 ≤ n ≤ 11).
Proof.
  intros n. rewrite reading_time_filter_eq, effective_word_count_eq.
  fold n. eexists. split; [done|].
  rewrite andb_true_iff, !Z.leb_le. split; [|done].
  unfold Qle, Qdiv, Qmult, Qinv, inject_Z. simpl. lia.
Qed.

(** In binary64 the verdicts are the same, on every effective word
    count below 2000. *)
Example binary64_same_band :
  forallb (λ n, bool_decide (reading_time_verdict_binary64 100 2 7 n
                             = (4 <=? n) && (n <=? 11)))
    (seqZ 0 2000) = true.
Proof. by vm_compute. Qed.

Section VerdictFacts.
Context {UD : UnicodeData}.

(** C10: [split] yields non-empty tokens only, so reading the first
    character of a token never raises; the filter returns on every
    string, and accepts exactly when no token after the first begins
    with an uppercase character. *)
Theorem basic_proper_noun_filter_never_fails (s : str) :
  Forall (λ word, word ≠ [] ∧ ∃ c, getitem word 0 = Ok c) (split s) ∧
  ∃ accept,
    basic_proper_noun_filter s = Ok accept ∧
    (accept = true ↔
     ∀ word c, word ∈ tail (split s) → head word = Some c →
               isupper c = false).
Proof.
  split.
  - eapply Forall_impl; [apply split_nonempty|]. intros [|c w] Hw; [done|].
    split; [done|]. exists c. apply getitem_first.
  - rewrite basic_proper_noun_filter_eq. eexists. split; [done|].
    rewrite forallb_forall. split.
    + intros H word c Hin%list_elem_of_In Hc. specialize (H _ Hin).
      destruct word as [|c' w]; [done|]. injection Hc as ->.
      by apply negb_true_iff.
    + intros H [|c w] Hin%list_elem_of_In; [done|].
      apply negb_true_iff. by apply (H (c :: w)).
Qed.

Lemma blank_not_paren s c :
  blank s = true → isspace c = false → contains c s = false.
Proof.
  intros Hs Hc. unfold contains. induction s as [|x s IH]; [done|].
  simpl in *. apply andb_prop in Hs as [Hx Hs]. rewrite (IH Hs).
  destruct (N.eqb_spec c x) as [->|]; [congruence|done].
Qed.

Lemma blank_allowed s : blank s = true → forallb allowed_char s = true.
Proof.
  unfold blank. rewrite !forallb_forall. intros H c Hc.
  unfold allowed_char. rewrite (H c Hc), !orb_true_r. done.
Qed.

(** C4, as the code has it: on an empty or whitespace-only sentence the
    four filters that look for content reject, the other five accept,
    and the cascade charges the sentence to starts_with_capital. *)
Theorem blank_sentence_verdicts (s : str) :
  blank s = true →
  starts_with_capital s = Ok false ∧
  ends_with_punctuation s = Ok false ∧
  only_one_sentence s = Ok false ∧
  reading_time_filter s = Ok false ∧
  has_no_parentheses s = Ok true ∧
  no_special_characters s = Ok true ∧
  max_word_count_filter s = Ok true ∧
  basic_proper_noun_filter s = Ok true ∧
  has_no_numbers [] = Ok true ∧
  ((∀ c, isspace c = true → isdigit c = false) → has_no_numbers s = Ok true) ∧
  ∀ (d : gmap string Z) v,
    d !! "starts_with_capital"%string = Some v →
    apply_fast_filters fast_filters s d
    = Ok (false, <["starts_with_capital"%string := v + 1]> d).
Proof.
  intros Hs.
  assert (starts_with_capital s = Ok false) as H1
    by (by rewrite starts_with_capital_eq, lstrip_blank).
  split_and!; try done.
  - by rewrite ends_with_punctuation_eq, rstrip_blank.
  - by rewrite only_one_sentence_eq, rstrip_blank.
  - by rewrite reading_time_filter_eq, split_blank.
  - unfold has_no_parentheses. by rewrite !blank_not_paren.
  - unfold no_special_characters. by rewrite blank_allowed.
  - unfold max_word_count_filter, max_word_count_filter_with.
    by rewrite split_blank.
  - by rewrite basic_proper_noun_filter_eq, split_blank.
  - intros Hd. unfold has_no_numbers.
    replace (existsb isdigit s) with false; [done|].
    symmetry. apply not_true_is_false. intros (c & Hc & Hdig)%existsb_exists.
    unfold blank in Hs. rewrite forallb_forall in Hs.
    rewrite (Hd c (Hs c Hc)) in Hdig. done.
  - intros d v Hv. simpl. rewrite H1, bind_Ok. simpl.
    by rewrite (increment_Some _ _ _ Hv).
Qed.

End VerdictFacts.

(** Two spaces. *)
Lemma blank_sentence_verdicts_witness :
  @starts_with_capital latin1 (lit "  ") = Ok false ∧
  has_no_parentheses (lit "  ") = Ok true.
Proof.
  destruct (@blank_sentence_verdicts latin1 (lit "  ")) as (H1 & _ & _ & _ & H5 & _).
  - reflexivity.
  - split; [exact H1 | exact H5].
Defined.

(** C4 as stated fails: five of the nine filters accept the empty
    string. *)
Lemma empty_sentence_accepted :
  has_no_parentheses (lit "") = Ok true ∧
  @has_no_numbers latin1 (lit "") = Ok true ∧
  no_special_characters (lit "") = Ok true ∧
  max_word_count_filter (lit "") = Ok true ∧
  @basic_proper_noun_filter latin1 (lit "") = Ok true.
Proof. by vm_compute. Qed.

(** ** The whole run *)

Lemma for_each_ext {S A} (body1 body2 : S → A → result S) (l : list A) st :
  (∀ st x, x ∈ l → body1 st x = body2 st x) →
  for_each body1 l st = for_each body2 l st.
Proof.
  revert st. induction l as [|x l IH]; intros st H; simpl; [done|].
  rewrite (H st x) by left. destruct (body2 st x) as [st'|e]; [|done].
  rewrite !bind_Ok. apply IH. intros st1 y Hy. apply H. by right.
Qed.

Lemma range_nonpositive n p : 0 ≤ n → range_down 0 n p = [].
Proof.
  intros Hn. rewrite (range_down_equation_1 0 n p).
  unfold range_down_unfold_clause_1. by destruct (Z_lt_dec n 0); [lia|].
Qed.

Lemma slice_sublist {A} (l : list A) lo hi : sublist (slice l lo hi) l.
Proof.
  unfold slice. etrans; [apply sublist_take|apply sublist_drop].
Qed.

Lemma disk_after_lookup (disk : gmap str str) files path :
  disk_after disk files !! path =
  match last_text files path with
  | Some t => Some t
  | None => disk !! path
  end.
Proof.
  induction files as [|f files IH] using rev_ind; [done|].
  unfold disk_after, last_text in *. rewrite !foldl_app. simpl.
  rewrite lookup_insert. case_decide; [done|apply IH].
Qed.

Lemma last_text_written files f :
  f ∈ files → is_Some (last_text files (chunk_filename f)).
Proof.
  induction files as [|g files IH] using rev_ind; [by intros ?%elem_of_nil|].
  unfold last_text in *. rewrite foldl_app. simpl.
  intros [Hin|Hin]%elem_of_app.
  - case_decide; [eauto|by apply IH].
  - apply list_elem_of_singleton in Hin as ->. by rewrite decide_True.
Qed.

Lemma disk_after_idem (disk : gmap str str) files :
  disk_after (disk_after disk files) files = disk_after disk files.
Proof.
  apply map_eq. intros path. rewrite !disk_after_lookup.
  by destruct (last_text files path).
Qed.

Section Run.
Context {UD : UnicodeData}.

Lemma main_spec nlp lines output_folder single_sentences chunk_size r :
  main nlp lines output_folder single_sentences chunk_size = Ok r →
  ∃ d indices,
    filter_passes nlp lines =
      Ok (d, len (input_sentences lines),
          List.filter (kept nlp) (input_sentences lines)) ∧
    range 0 (len (List.filter (kept nlp) (input_sentences lines))) chunk_size
      = Ok indices ∧
    r = {| rejected := d;
           lines_processed := len (input_sentences lines);
           total_final := len (List.filter (kept nlp) (input_sentences lines));
           chunk_count := len indices;
           written :=
             imap (λ (k : nat) i,
                     file_at (List.filter (kept nlp) (input_sentences lines))
                       output_folder single_sentences chunk_size
                       (Z.of_nat k) i) indices |}.
Proof.
  destruct (filter_passes_spec nlp lines) as (d & Hrun & _).
  unfold main, write_chunks. rewrite Hrun, bind_Ok.
  destruct (range 0 _ chunk_size) as [indices|e]; [|done].
  rewrite !bind_Ok. unfold mret, result_ret. rewrite write_fold, ?bind_Ok.
  intros [= <-]. exists d, indices. by split_and!.
Qed.

Lemma passes_fast_accepts s f name :
  passes_fast s = true → (f, name) ∈ fast_filters → f s = Ok true.
Proof.
  unfold passes_fast. rewrite forallb_forall.
  intros H Hin%list_elem_of_In. specialize (H _ Hin). simpl in H.
  unfold accepts in H. by destruct (f s) as [[]|].
Qed.

Lemma filter_passes_ext nlp1 nlp2 lines :
  (∀ s, s ∈ input_sentences lines → passes_fast s = true →
        nlp1 s = nlp2 s) →
  filter_passes nlp1 lines = filter_passes nlp2 lines.
Proof.
  intros Hnlp. unfold filter_passes.
  destruct (fast_pass_spec lines) as (st & -> & _ & _ & Hsurv & _).
  rewrite !bind_Ok. unfold slow_pass.
  rewrite (for_each_ext (slow_pass_body (create_proper_noun_filter nlp1))
             (slow_pass_body (create_proper_noun_filter nlp2))); [done|].
  intros [final d] s Hs. rewrite Hsurv in Hs.
  apply list_elem_of_In, List.filter_In in Hs as [Hin%list_elem_of_In Hfast].
  unfold slow_pass_body, create_proper_noun_filter.
  by rewrite (Hnlp s Hin Hfast).
Qed.

End Run.

(** ** Output lines *)

Lemma count_zero_cons sep c (s : str) :
  count sep (c :: s) = 0 ↔ (sep =? c)%N = false ∧ count sep s = 0.
Proof.
  unfold count. simpl. pose proof (len_nonneg (List.filter (N.eqb sep) s)).
  destruct (sep =? c)%N; [rewrite len_cons|]; split; try done; try lia.
Qed.

Lemma split_on_fields sep s : Forall (λ p, count sep p = 0) (split_on sep s).
Proof.
  induction s as [|c s IH]; simpl; [by repeat constructor|].
  destruct (N.eqb_spec c sep) as [->|Hne]; [by constructor|].
  destruct (split_on sep s) as [|p ps]; [repeat constructor|].
  - apply count_zero_cons. split; [by apply N.eqb_neq|done].
  - inversion_clear IH as [|? ? Hp Hps]. constructor; [|done].
    apply count_zero_cons. split; [by apply N.eqb_neq|done].
Qed.

Lemma split_on_app sep a b :
  count sep a = 0 → split_on sep (a ++ sep :: b) = a :: split_on sep b.
Proof.
  induction a as [|c a IH]; simpl.
  - by rewrite N.eqb_refl.
  - intros [Hc Ha]%count_zero_cons. rewrite N.eqb_sym, Hc.
    by rewrite (IH Ha).
Qed.

Lemma sentence_of_no_tab line s : sentence_of line = Some s → count 9%N s = 0.
Proof.
  unfold sentence_of. destruct (truthy (strip line)); [|done].
  pose proof (split_on_fields 9%N (strip line)) as Hf.
  destruct (split_on 9%N (strip line)) as [|a [|b r]]; [done..|].
  intros [= <-]. inversion_clear Hf as [|? ? _ Hf']. inversion_clear Hf' as [|? ? Hb _].
  pose proof (count_strip 9%N b).
  pose proof (len_nonneg (List.filter (N.eqb 9%N) (strip b))).
  unfold count in *. lia.
Qed.

Lemma full_mode_line_fields s :
  count 9%N s = 0 →
  split_on 9%N (full_mode_line s) =
  [s; source; additional_rationale; []; domain ++ newline].
Proof.
  intros Hs. unfold full_mode_line, tab.
  change (s ++ [9%N] ++ ?rest) with (s ++ 9%N :: rest).
  by rewrite (split_on_app _ _ _ Hs).
Qed.

Lemma scenario_A_sentence : input_sentences [scenario_A] = [lit "Hallo der."].
Proof. by vm_compute. Qed.

Section OutputFacts.
Context {UD : UnicodeData}.

(** C7, as the code has it: in full mode the text of every written
    file is, for each sentence of its chunk, the sentence, a tab, the
    source URL, a tab, the rationale, two tabs, "General" and a
    newline, which splits at tabs into exactly the sentence and four
    further fields; the Scenario A sentence has two effective words, is
    counted and rejected, and no file is written for it, whereas a
    four-word sentence the tagger accepts is the one line of chunk 1. *)
Theorem full_mode_line_format (nlp : str → list Token) (lines : list str)
    (output_folder : str) (chunk_size : Z) :
  (∀ r, main nlp lines output_folder false chunk_size = Ok r →
     Forall (λ f,
       text f = concat (full_mode_line <$> chunk f) ∧
       Forall (λ s, split_on 9%N (full_mode_line s)
                    = [s; source; additional_rationale; [];
                       lit "General" ++ newline])
         (chunk f)) (written r)) ∧
  (∀ r, main nlp [scenario_A] output_folder false chunk_size = Ok r →
     lines_processed r = 1 ∧ total_final r = 0 ∧ chunk_count r = 0 ∧
     written r = []) ∧
  (∀ r, @main latin1 nlp [scenario_A] output_folder false chunk_size = Ok r →
     rejected r !! "reading_time_filter"%string = Some 1) ∧
  (0 < chunk_size →
   accepts (create_proper_noun_filter nlp) (lit "Hallo der du der.") = true →
   ∃ r, @main latin1 nlp [lit "1" ++ tab ++ lit "Hallo der du der." ++ newline]
          output_folder false chunk_size = Ok r ∧
        written r =
          [{| chunk_filename := path_join output_folder (lit "output_1.tsv");
              chunk := [lit "Hallo der du der."];
              text := lit "Hallo der du der." ++ tab ++ source ++ tab
                      ++ additional_rationale ++ tab ++ tab
                      ++ lit "General" ++ newline |}]).
Proof.
  split_and!.
  - intros r (d & indices & _ & _ & ->)%main_spec. simpl.
    apply Forall_forall. intros f Hf.
    apply list_elem_of_lookup in Hf as [k Hf].
    rewrite list_lookup_imap in Hf.
    destruct (indices !! k) as [i|]; [|done]. injection Hf as <-. simpl.
    split; [done|]. apply Forall_forall. intros s Hs.
    apply full_mode_line_fields.
    eapply elem_of_sublist in Hs; [|apply slice_sublist].
    apply list_elem_of_In, List.filter_In in Hs as [Hs%list_elem_of_In _].
    apply list_elem_of_omap in Hs as (line & _ & Hline).
    by eapply sentence_of_no_tab.
  - intros r (d & indices & _ & Hrange & ->)%main_spec.
    rewrite scenario_A_sentence in *.
    assert (List.filter (kept nlp) [lit "Hallo der."] = []) as Hnone.
    { assert (kept nlp (lit "Hallo der.") = false) as Hkept.
      { unfold kept. destruct (passes_fast (lit "Hallo der.")) eqn:E; [|done].
        assert (reading_time_filter (lit "Hallo der.") = Ok true) as Hrt;
          [|done].
        apply (passes_fast_accepts _ _ "reading_time_filter"%string E).
        unfold fast_filters. do 6 right. left. }
      cbn [List.filter]. by rewrite Hkept. }
    rewrite Hnone in *. cbn [lines_processed total_final chunk_count written].
    enough (indices = []) as -> by done.
    change (len []) with 0 in Hrange.
    destruct chunk_size as [|p|p]; simpl in Hrange; [done| |].
    + rewrite range_up_step in Hrange. by injection Hrange.
    + rewrite range_nonpositive in Hrange by done. by injection Hrange.
  - intros r (d & indices & Hpasses & _ & ->)%main_spec.
    cbn [rejected]. vm_compute in Hpasses. injection Hpasses as <-.
    by vm_compute.
  - intros Hcs Hnlp. destruct chunk_size as [|p|p]; [lia| |lia].
    destruct (filter_passes_spec (UD:=latin1) nlp
                [lit "1" ++ tab ++ lit "Hallo der du der." ++ newline])
      as (d & Hpasses & _).
    change (input_sentences [lit "1" ++ tab ++ lit "Hallo der du der." ++ newline])
      with [lit "Hallo der du der."] in Hpasses.
    assert (List.filter (kept (UD:=latin1) nlp) [lit "Hallo der du der."]
            = [lit "Hallo der du der."]) as Hkept.
    { cbn [List.filter]. unfold kept. rewrite Hnlp.
      by replace (passes_fast (UD:=latin1) (lit "Hallo der du der.")) with true
        by (by vm_compute). }
    rewrite Hkept in Hpasses.
    unfold main, write_chunks, range. rewrite Hpasses, !bind_Ok.
    change (len [lit "Hallo der du der."]) with 1.
    rewrite range_up_step. change (0 <? 1) with true. cbv iota.
    rewrite range_up_step.
    replace (0 + Z.pos p <? 1) with false by lia.
    eexists. split; [done|]. cbn [written foldl write_body app].
    rewrite slice_chunk by lia. cbn [drop Z.to_nat].
    rewrite take_ge by (simpl; lia). by vm_compute.
Qed.

End OutputFacts.

(** A four-word sentence, written in full mode. *)
Lemma full_mode_line_format_witness :
  ∃ r,
    @main latin1 no_proper_nouns
      [lit "1" ++ tab ++ lit "Hallo der du der." ++ newline]
      (lit "out") false 1000000 = Ok r ∧
    Forall (λ f,
      text f = concat (full_mode_line <$> chunk f) ∧
      Forall (λ s, split_on 9%N (full_mode_line s)
                   = [s; source; additional_rationale; [];
                      lit "General" ++ newline])
        (chunk f)) (written r).
Proof.
  eexists. split.
  - vm_compute. reflexivity.
  - destruct (@full_mode_line_format latin1 no_proper_nouns
                [lit "1" ++ tab ++ lit "Hallo der du der." ++ newline]
                (lit "out") 1000000) as [H _].
    apply H. vm_compute. reflexivity.
Defined.

Example four_word_sentence_written :
  written <$>
    (match @main latin1 no_proper_nouns
             [lit "1" ++ tab ++ lit "Hallo der du der." ++ newline]
             (lit "out") false 1000000 with
     | Ok r => Some r
     | Raise _ => None
     end)
  = Some [{| chunk_filename := lit "out/output_1.tsv";
             chunk := [lit "Hallo der du der."];
             text := lit "Hallo der du der." ++ tab ++ source ++ tab
                     ++ additional_rationale ++ tab ++ tab
                     ++ lit "General" ++ newline |}].
Proof. by vm_compute. Qed.

(** C7 as stated fails on Scenario A: with a tagger that finds no
    proper noun the sentence is rejected by reading_time_filter, no
    file is written, and a full-mode line has no space before
    "General". *)
Lemma scenario_A_not_written :
  ∃ r,
    @main latin1 no_proper_nouns [scenario_A] (lit "out") false 1000000
      = Ok r ∧
    reading_time_filter (lit "Hallo der.") = Ok false ∧
    rejected r !! "reading_time_filter"%string = Some 1 ∧
    total_final r = 0 ∧ chunk_count r = 0 ∧ written r = [] ∧
    output_line false (lit "Hallo der.")
    ≠ lit "Hallo der." ++ tab ++ source ++ tab ++ additional_rationale
      ++ tab ++ tab ++ lit " General" ++ newline.
Proof.
  eexists. split; [vm_compute; reflexivity|].
  split_and!; try by vm_compute.
Qed.

(** ** Determinism *)

Section Determinism.
Context {UD : UnicodeData}.

(** C8: a second run on the same lines and configuration, with a
    tagger that tags the fast-pass survivors as the first one did,
    returns the same counters, the same number of chunks and the same
    files with the same text; each written path holds the same text
    whatever the folder held before, and running again over the output
    of the first run changes nothing. *)
Theorem pipeline_deterministic (nlp1 nlp2 : str → list Token)
    (lines : list str) (output_folder : str) (single_sentences : bool)
    (chunk_size : Z) (r : report) :
  (∀ s, s ∈ input_sentences lines → passes_fast s = true → nlp1 s = nlp2 s) →
  main nlp1 lines output_folder single_sentences chunk_size = Ok r →
  main nlp2 lines output_folder single_sentences chunk_size = Ok r ∧
  (∀ disk disk' f, f ∈ written r →
     disk_after disk (written r) !! chunk_filename f
     = disk_after disk' (written r) !! chunk_filename f) ∧
  (∀ disk, disk_after (disk_after disk (written r)) (written r)
           = disk_after disk (written r)).
Proof.
  intros Hnlp Hrun. split_and!.
  - rewrite <- Hrun. unfold main.
    by rewrite (filter_passes_ext nlp1 nlp2 lines Hnlp).
  - intros disk disk' f Hf. rewrite !disk_after_lookup.
    by destruct (last_text_written _ _ Hf) as [t ->].
  - intros disk. apply disk_after_idem.
Qed.

End Determinism.

(** Two runs over a two-line input, one sentence of which survives. *)
Lemma pipeline_deterministic_witness :
  ∃ r,
    @main latin1 no_proper_nouns
      [lit "1" ++ tab ++ lit "Hallo der du der." ++ newline;
       lit "2" ++ tab ++ lit "Dette er Oslo." ++ newline]
      (lit "out") true 2 = Ok r ∧
    (∀ disk, disk_after (disk_after disk (written r)) (written r)
             = disk_after disk (written r)).
Proof.
  eexists. split.
  - vm_compute. reflexivity.
  - eapply (@pipeline_deterministic latin1 no_proper_nouns no_proper_nouns
              [lit "1" ++ tab ++ lit "Hallo der du der." ++ newline;
               lit "2" ++ tab ++ lit "Dette er Oslo." ++ newline]
              (lit "out") true 2).
    + reflexivity.
    + vm_compute. reflexivity.
Defined.

(** * Further properties of the code *)

(** ** Stripping *)

Lemma lstrip_app a b :
  lstrip (a ++ b) = if blank a then lstrip b else lstrip a ++ b.
Proof.
  induction a as [|c a IH]; [done|]. simpl.
  destruct (isspace c); simpl; [apply IH|done].
Qed.

Lemma rstrip_cons c s :
  rstrip (c :: s) = if blank (c :: s) then [] else c :: rstrip s.
Proof.
  unfold rstrip. simpl rev. rewrite lstrip_app, blank_rev.
  change (blank (c :: s)) with (isspace c && blank s).
  destruct (blank s) eqn:Hs.
  - rewrite andb_true_r. simpl. destruct (isspace c); [done|].
    by rewrite lstrip_blank by (by rewrite blank_rev).
  - rewrite andb_false_r. by rewrite rev_app_distr.
Qed.

Lemma rstrip_app a b :
  rstrip (a ++ b) = if blank b then rstrip a else a ++ rstrip b.
Proof.
  induction a as [|c a IH]; simpl.
  - destruct (blank b) eqn:Hb; [by rewrite rstrip_blank|done].
  - rewrite !rstrip_cons, IH.
    change (blank (c :: a ++ b)) with (isspace c && blank (a ++ b)).
    change (blank (c :: a)) with (isspace c && blank a).
    unfold blank at 1. rewrite forallb_app. fold (blank a) (blank b).
    destruct (blank b); [by rewrite andb_true_r|].
    by rewrite andb_false_r, andb_false_r.
Qed.

Lemma lstrip_rstrip s : lstrip (rstrip s) = rstrip (lstrip s).
Proof.
  induction s as [|c s IH]; [done|]. rewrite rstrip_cons.
  destruct (blank (c :: s)) eqn:Hb.
  - by rewrite (lstrip_blank _ Hb).
  - simpl lstrip. destruct (isspace c) eqn:E; [done|].
    by rewrite rstrip_cons, Hb.
Qed.

Lemma lstrip_idem s : lstrip (lstrip s) = lstrip s.
Proof.
  induction s as [|c s IH]; [done|]. simpl.
  destruct (isspace c) eqn:E; [done|]. simpl. by rewrite E.
Qed.

Lemma rstrip_idem s : rstrip (rstrip s) = rstrip s.
Proof. unfold rstrip. by rewrite rev_involutive, lstrip_idem. Qed.

Lemma lstrip_strip s : lstrip (strip s) = strip s.
Proof. unfold strip. by rewrite lstrip_rstrip, lstrip_idem. Qed.

Lemma rstrip_strip s : rstrip (strip s) = strip s.
Proof. unfold strip. apply rstrip_idem. Qed.

Lemma strip_rstrip s : strip (rstrip s) = strip s.
Proof. unfold strip. by rewrite lstrip_rstrip, rstrip_idem. Qed.

Lemma strip_snoc_space s w : isspace w = true → strip (s ++ [w]) = strip s.
Proof.
  intros Hw. unfold strip. rewrite lstrip_app.
  destruct (blank s) eqn:Hs.
  - simpl. rewrite Hw. by rewrite (lstrip_blank _ Hs).
  - rewrite rstrip_app. simpl. by rewrite Hw.
Qed.

Lemma blank_false_truthy_strip s : blank s = false → truthy (strip s) = true.
Proof.
  intros Hs. unfold strip. induction s as [|c s IH]; [done|]. simpl in *.
  destruct (isspace c) eqn:E; [by apply IH|].
  rewrite rstrip_cons. simpl. by rewrite E.
Qed.

(** ** How the filters overlap *)

Lemma count_nonneg c s : 0 ≤ count c s.
Proof. apply len_nonneg. Qed.

Lemma count_app c a b : count c (a ++ b) = count c a + count c b.
Proof. unfold count. by rewrite List.filter_app, len_app. Qed.

Lemma count_zero_contains c s : count c s = 0 ↔ contains c s = false.
Proof.
  unfold contains. induction s as [|x s IH]; [done|].
  rewrite count_zero_cons. simpl. rewrite orb_false_iff. by rewrite IH.
Qed.

Lemma len_filter_le {A} (f : A → bool) (l : list A) :
  len (List.filter f l) ≤ len l.
Proof.
  induction l as [|x l IH]; simpl; [done|].
  destruct (f x); rewrite ?len_cons; lia.
Qed.

Lemma only_one_sentence_shape (s : str) :
  (only_one_sentence s = Ok true ↔
   ∃ body c, rstrip s = body ++ [c] ∧ end_punct c = true ∧
             count 46%N body = 0 ∧ count 63%N body = 0) ∧
  (only_one_sentence s = Ok true → ends_with_punctuation s = Ok true).
Proof.
  rewrite only_one_sentence_eq, ends_with_punctuation_eq.
  destruct (rstrip s) as [|c body _] using rev_ind.
  { split; [|done]. split; [done|]. by intros (body & c & []%app_cons_not_nil & _). }
  rewrite last_snoc, !count_app.
  pose proof (count_nonneg 46%N body). pose proof (count_nonneg 63%N body).
  assert (end_punct c = true →
          count 46%N [c] + count 63%N [c] = 1) as Hone.
  { unfold end_punct, count. simpl. rewrite !(N.eqb_sym c).
    destruct (N.eqb_spec 46 c) as [<-|]; [done|].
    by destruct (N.eqb_spec 63 c) as [<-|]. }
  split; [split|].
  - intros [= [Hsum%Z.eqb_eq Hc]%andb_prop]. exists body, c.
    specialize (Hone Hc). split_and!; [done|done|lia|lia].
  - intros (body' & c' & [<- <-]%app_inj_tail & Hc & H46 & H63).
    rewrite Hc, andb_true_r. f_equal. apply Z.eqb_eq.
    specialize (Hone Hc). lia.
  - by intros [= [_ ->]%andb_prop].
Qed.

(** X1: [only_one_sentence] accepts exactly the sentences that, with
    trailing whitespace removed, end in a full stop or question mark
    and hold no other full stop or question mark; whatever it accepts,
    [ends_with_punctuation] accepts as well. *)
Theorem only_one_sentence_iff (s : str) :
  (only_one_sentence s = Ok true ↔
   ∃ body c, rstrip s = body ++ [c] ∧ end_punct c = true ∧
             count 46%N body = 0 ∧ count 63%N body = 0) ∧
  (only_one_sentence s = Ok true → ends_with_punctuation s = Ok true).
Proof. apply only_one_sentence_shape. Qed.

(** X2: a sentence [no_special_characters] accepts holds no
    parenthesis, so [has_no_parentheses] accepts it too. *)
Theorem special_characters_cover_parentheses (s : str) :
  no_special_characters s = Ok true → has_no_parentheses s = Ok true.
Proof.
  unfold no_special_characters, has_no_parentheses. intros [= Hs].
  assert (∀ c, allowed_char c = false → contains c s = false) as Hnot.
  { intros c Hc. unfold contains. apply not_true_is_false.
    intros (x & Hx & <-%N.eqb_eq)%existsb_exists.
    rewrite forallb_forall in Hs. by rewrite (Hs _ Hx) in Hc. }
  by rewrite !Hnot.
Qed.

Lemma special_characters_cover_parentheses_witness :
  has_no_parentheses (lit "Hei, du der!") = Ok true.
Proof.
  apply (special_characters_cover_parentheses (lit "Hei, du der!")).
  reflexivity.
Defined.

Lemma reading_time_word_count s :
  reading_time_filter s = Ok true →
  2 ≤ len (split s) ≤ 11 ∧ max_word_count_filter s = Ok true.
Proof.
  rewrite reading_time_filter_eq, effective_word_count_eq.
  intros [= [H4%Z.leb_le H11%Z.leb_le]%andb_prop].
  pose proof (len_filter_le (λ w, 10 <? len w) (split s)).
  pose proof (len_nonneg (List.filter (λ w, 10 <? len w) (split s))).
  split; [lia|].
  unfold max_word_count_filter, max_word_count_filter_with.
  by replace (len (split s) <=? 14) with true by lia.
Qed.

(** X3: a sentence [reading_time_filter] accepts has between 2 and 11
    words, so [max_word_count_filter], with its bound of 14, accepts
    it too. *)
Theorem reading_time_bounds_word_count (s : str) :
  reading_time_filter s = Ok true →
  2 ≤ len (split s) ≤ 11 ∧ max_word_count_filter s = Ok true.
Proof. apply reading_time_word_count. Qed.

Lemma reading_time_bounds_word_count_witness :
  2 ≤ len (split (lit "Hallo der du der.")) ≤ 11 ∧
  max_word_count_filter (lit "Hallo der du der.") = Ok true.
Proof.
  apply (reading_time_bounds_word_count (lit "Hallo der du der.")).
  reflexivity.
Defined.

(** ** What each counter counts *)

Lemma apply_fast_filters_charged filters s (d : gmap string Z) :
  Forall (λ p, total p.1) filters →
  Forall (λ p, is_Some (d !! p.2)) filters →
  apply_fast_filters filters s d =
  Ok (match first_reject filters s with
      | None => (true, d)
      | Some name => (false, <[name := counter d name + 1]> d)
      end).
Proof.
  induction filters as [|[f name] rest IH]; intros Htot Hkeys; [done|].
  inversion_clear Htot as [|? ? Hf Hrest].
  inversion_clear Hkeys as [|? ? [v Hv] Hkrest]. simpl in *.
  unfold accepts. destruct (Hf s) as [[] ->]; rewrite bind_Ok; simpl.
  - by apply IH.
  - rewrite (increment_Some _ _ _ Hv). unfold counter. by rewrite Hv.
Qed.

Lemma first_reject_name filters s name :
  first_reject filters s = Some name → name ∈ filters.*2.
Proof.
  induction filters as [|[f n] rest IH]; [done|]. simpl.
  destruct (accepts f s); [right; auto|]. intros [= ->]. left.
Qed.

Lemma filter_snoc {A} (f : A → bool) (l : list A) (x : A) :
  List.filter f (l ++ [x]) = List.filter f l ++ (if f x then [x] else []).
Proof. by rewrite List.filter_app. Qed.

Lemma input_sentences_snoc pre line :
  input_sentences (pre ++ [line]) =
  input_sentences pre ++
  match sentence_of line with Some s => [s] | None => [] end.
Proof.
  unfold input_sentences. rewrite omap_app. simpl.
  by destruct (sentence_of line).
Qed.

Section Counters.
Context {UD : UnicodeData}.

Lemma first_reject_passes s :
  passes_fast s = match first_reject fast_filters s with
                  | None => true
                  | Some _ => false
                  end.
Proof.
  unfold passes_fast. generalize fast_filters.
  induction l as [|[f n] rest IH]; [done|]. simpl.
  destruct (accepts f s); [apply IH|done].
Qed.

Lemma initial_lookup name :
  initial_fail_count !! name =
  if decide (name ∈ counter_names) then Some 0 else None.
Proof.
  case_decide as Hin.
  - pose proof initial_seeded as Hseed. unfold seeded in Hseed.
    rewrite Forall_forall in Hseed.
    repeat (apply elem_of_cons in Hin as [->|Hin]; [by vm_compute|]).
    by apply elem_of_nil in Hin.
  - apply not_elem_of_dom. rewrite initial_dom.
    by rewrite elem_of_list_to_set.
Qed.

(** The number of sentences charged to a filter. *)
Lemma fast_pass_counters lines :
  ∃ st,
    fast_pass lines = Ok st ∧
    survivors st = List.filter passes_fast (input_sentences lines) ∧
    total_lines st = len (input_sentences lines) ∧
    ∀ name,
      filter_fail_count st !! name =
      if decide (name ∈ counter_names)
      then Some (len (List.filter
                        (λ s, bool_decide
                                (first_reject fast_filters s = Some name))
                        (input_sentences lines)))
      else None.
Proof.
  apply (for_each_inv fast_pass_body
    (λ pre st,
       survivors st = List.filter passes_fast (input_sentences pre) ∧
       total_lines st = len (input_sentences pre) ∧
       ∀ name,
         filter_fail_count st !! name =
         if decide (name ∈ counter_names)
         then Some (len (List.filter
                           (λ s, bool_decide
                                   (first_reject fast_filters s = Some name))
                           (input_sentences pre)))
         else None)).
  - split_and!; [done..|]. intros name. cbn [filter_fail_count].
    rewrite initial_lookup. by case_decide.
  - intros pre line st (Hsurv & Htot & Hcnt).
    rewrite input_sentences_snoc.
    destruct (sentence_of line) as [s|] eqn:Hs.
    2:{ rewrite (fast_pass_body_skipped _ _ Hs), app_nil_r. by exists st. }
    rewrite (fast_pass_body_counted _ _ _ Hs).
    rewrite apply_fast_filters_charged; [|apply fast_filters_total|].
    2:{ apply Forall_forall. intros [f n] Hin. simpl. rewrite Hcnt.
        rewrite decide_True; [eauto|].
        unfold counter_names. apply elem_of_app. left.
        rewrite <- fast_filters_names. apply list_elem_of_fmap.
        by exists (f, n). }
    rewrite bind_Ok. pose proof (first_reject_passes s) as Hpass.
    destruct (first_reject fast_filters s) as [k|] eqn:Hk.
    + eexists. split; [done|]. cbn [survivors total_lines filter_fail_count].
      rewrite filter_snoc, Hpass, app_nil_r, len_app.
      change (len [s]) with 1.
      split_and!; [done|lia|].
      intros name. rewrite filter_snoc, len_app, lookup_insert.
      case_decide as Hname.
      * subst name. unfold counter. rewrite Hcnt.
        assert (k ∈ counter_names) as Hin.
        { unfold counter_names. apply elem_of_app. left.
          rewrite <- fast_filters_names. by eapply first_reject_name. }
        rewrite !decide_True by done.
        by rewrite bool_decide_true by exact Hk.
      * rewrite Hcnt. case_decide; [|done].
        rewrite bool_decide_false by (rewrite Hk; congruence).
        change (len []) with 0. by rewrite Z.add_0_r.
    + eexists. split; [done|]. cbn [survivors total_lines filter_fail_count].
      rewrite filter_snoc, Hpass, Hsurv, len_app. change (len [s]) with 1.
      split_and!; [done|lia|].
      intros name. rewrite filter_snoc, len_app, Hcnt. case_decide; [|done].
      rewrite bool_decide_false by (by rewrite Hk).
      change (len []) with 0. by rewrite Z.add_0_r.
Qed.

End Counters.

Lemma slow_pass_counter (f : str → result bool) survivors
    (d : gmap string Z) v :
  total f → d !! "proper_noun_filter"%string = Some v →
  ∃ d',
    slow_pass f survivors d = Ok (List.filter (accepts f) survivors, d') ∧
    d' !! "proper_noun_filter"%string
      = Some (v + len (List.filter (λ s, negb (accepts f s)) survivors)) ∧
    (∀ key, key ≠ "proper_noun_filter"%string → d' !! key = d !! key).
Proof.
  intros Hf Hv.
  destruct (for_each_inv (slow_pass_body f)
    (λ pre st,
       st.1 = List.filter (accepts f) pre ∧
       st.2 !! "proper_noun_filter"%string
         = Some (v + len (List.filter (λ s, negb (accepts f s)) pre)) ∧
       ∀ key, key ≠ "proper_noun_filter"%string → st.2 !! key = d !! key)
    survivors ([], d)) as ([final d'] & Hrun & Hfin & Hpn & Hkeys).
  - simpl. split_and!; [done| |done]. rewrite Hv. f_equal.
    change (len []) with 0. lia.
  - intros pre s [final d1] (Hfin & Hpn & Hkeys). simpl in *.
    rewrite !filter_snoc, len_app.
    replace (accepts f s) with (match f s with Ok true => true | _ => false end)
      by done.
    destruct (Hf s) as [b ->]. rewrite bind_Ok. destruct b.
    + eexists. split; [done|]. simpl. rewrite Hfin, Hpn.
      change (len []) with 0. rewrite Z.add_0_r. by split_and!.
    + rewrite (increment_Some _ _ _ Hpn), bind_Ok.
      eexists. split; [done|]. simpl. rewrite lookup_insert_eq, app_nil_r.
      change (len [s]) with 1. split_and!; [done|f_equal; lia|].
      intros key Hkey. rewrite lookup_insert_ne; auto.
  - exists d'. simpl in *. by subst final.
Qed.

Lemma filter_length_split {A} (f g : A → bool) (l : list A) :
  len (List.filter (λ x, f x && negb (g x)) l)
  = len (List.filter (λ x, negb (g x)) (List.filter f l)).
Proof. by rewrite filter_filter. Qed.

Lemma proper_noun_not_fast : "proper_noun_filter"%string ∉ filter_names.
Proof. compute_done. Qed.

Section CounterFacts.
Context {UD : UnicodeData} (nlp : str → list Token).

(** Sentences charged to a counter, by its name. *)
Lemma filter_passes_counters lines :
  ∃ d,
    filter_passes nlp lines =
      Ok (d, len (input_sentences lines),
          List.filter (kept nlp) (input_sentences lines)) ∧
    ∀ name,
      d !! name =
      if decide (name = "proper_noun_filter"%string)
      then Some (len (List.filter
                        (λ s, passes_fast s
                              && negb (accepts (create_proper_noun_filter nlp) s))
                        (input_sentences lines)))
      else if decide (name ∈ filter_names)
      then Some (len (List.filter
                        (λ s, bool_decide
                                (first_reject fast_filters s = Some name))
                        (input_sentences lines)))
      else None.
Proof.
  destruct (fast_pass_counters lines) as (st & Hfast & Hsurv & Htot & Hcnt).
  assert (filter_fail_count st !! "proper_noun_filter"%string = Some 0) as Hpn.
  { rewrite Hcnt.
    rewrite decide_True
      by (unfold counter_names; apply elem_of_app; right; left).
    f_equal. apply (f_equal len (y := [])). apply filter_none.
    apply Forall_forall. intros s _. apply bool_decide_eq_false.
    intros Hin%first_reject_name. rewrite fast_filters_names in Hin.
    by apply proper_noun_not_fast. }
  destruct (slow_pass_counter (create_proper_noun_filter nlp) (survivors st)
              (filter_fail_count st) 0 (create_proper_noun_filter_total nlp)
              Hpn) as (d' & Hslow & Hpn' & Hkeys).
  exists d'. split.
  - unfold filter_passes. rewrite Hfast, bind_Ok, Hslow, bind_Ok.
    by rewrite Hsurv, filter_filter, Htot.
  - intros name. case_decide as Hname.
    + subst name. by rewrite Hpn', Hsurv, filter_length_split.
    + rewrite (Hkeys _ Hname), Hcnt.
      unfold counter_names. case_decide as Hin; case_decide as Hin';
        try done.
      * exfalso. apply Hin'. by apply elem_of_app in Hin as [?|?%list_elem_of_singleton].
      * exfalso. apply Hin. apply elem_of_app. by left.
Qed.

End CounterFacts.

Section RunFacts.
Context {UD : UnicodeData} (nlp : str → list Token).

Lemma max_word_count_not_first s :
  first_reject fast_filters s ≠ Some "max_word_count_filter"%string.
Proof.
  unfold fast_filters. cbn [first_reject].
  destruct (accepts starts_with_capital s); [|done].
  destruct (accepts has_no_parentheses s); [|done].
  destruct (accepts ends_with_punctuation s); [|done].
  destruct (accepts only_one_sentence s); [|done].
  destruct (accepts has_no_numbers s); [|done].
  destruct (accepts no_special_characters s); [|done].
  destruct (accepts reading_time_filter s) eqn:E; [|done].
  unfold accepts in E.
  destruct (reading_time_filter s) as [[]|] eqn:E'; try done.
  destruct (reading_time_word_count s E') as [_ Hmax].
  unfold accepts at 1. rewrite Hmax.
  by destruct (accepts basic_proper_noun_filter s).
Qed.

Lemma kept_iff s :
  kept nlp s = true ↔
  Forall (λ p, p.1 s = Ok true) fast_filters ∧
  Forall (λ token, pos_ token ≠ "PROPN"%string) (nlp s).
Proof.
  unfold kept, passes_fast. rewrite andb_true_iff, forallb_forall.
  rewrite Forall_forall. f_equiv.
  - split.
    + intros H p Hp%list_elem_of_In. specialize (H p Hp).
      unfold accepts in H. by destruct (p.1 s) as [[]|].
    + intros H p Hp%list_elem_of_In. unfold accepts. by rewrite (H p Hp).
  - unfold accepts, create_proper_noun_filter. simpl.
    rewrite Forall_forall. split.
    + intros H token Hin Hpos.
      destruct (existsb _ (nlp s)) eqn:E; [done|].
      rewrite <- not_true_iff_false, existsb_exists in E. apply E.
      exists token. split; [by apply list_elem_of_In|by apply String.eqb_eq].
    + intros H. destruct (existsb _ (nlp s)) eqn:E; [|done].
      apply existsb_exists in E as (token & Hin%list_elem_of_In & Hpos).
      apply String.eqb_eq in Hpos. by destruct (H token Hin).
Qed.

(** X4: after both passes the counter of a fast filter is the number
    of counted sentences for which it is the first filter, in cascade
    order, not to accept; the counter of proper_noun_filter is the
    number of fast-pass survivors the tagger finds a proper noun in;
    the dictionary has no other key. *)
Theorem counters_exact (lines : list str) :
  ∃ d,
    filter_passes nlp lines =
      Ok (d, len (input_sentences lines),
          List.filter (kept nlp) (input_sentences lines)) ∧
    (∀ name, name ∈ filter_names →
       d !! name =
       Some (len (List.filter
                    (λ s, bool_decide (first_reject fast_filters s = Some name))
                    (input_sentences lines)))) ∧
    d !! "proper_noun_filter"%string =
      Some (len (List.filter
                   (λ s, passes_fast s
                         && negb (accepts (create_proper_noun_filter nlp) s))
                   (input_sentences lines))) ∧
    (∀ name, name ∉ counter_names → d !! name = None).
Proof.
  destruct (filter_passes_counters nlp lines) as (d & Hrun & Hcnt).
  exists d. split_and!; [done|..].
  - intros name Hin. rewrite Hcnt. rewrite decide_False.
    + by rewrite decide_True.
    + intros ->. by apply proper_noun_not_fast.
  - by rewrite Hcnt, decide_True.
  - intros name Hin. rewrite Hcnt. unfold counter_names in Hin.
    rewrite elem_of_app, list_elem_of_singleton in Hin.
    rewrite !decide_False; [done|tauto|tauto].
Qed.

(** X5: no run charges a sentence to max_word_count_filter: a
    sentence that reaches it has passed reading_time_filter and so has
    at most 11 words. *)
Theorem max_word_count_filter_never_charged (lines : list str) :
  ∃ d total_lines final_pass,
    filter_passes nlp lines = Ok (d, total_lines, final_pass) ∧
    d !! "max_word_count_filter"%string = Some 0.
Proof.
  destruct (filter_passes_counters nlp lines) as (d & Hrun & Hcnt).
  eexists _, _, _. split; [exact Hrun|]. rewrite Hcnt.
  rewrite decide_False by done. rewrite decide_True by compute_done.
  f_equal. apply (f_equal len (y := [])). apply filter_none.
  apply Forall_forall. intros s _. apply bool_decide_eq_false.
  apply max_word_count_not_first.
Qed.

(** X6: the two passes over the lines of two inputs, one after the
    other, accept the sentences of the first followed by those of the
    second; total_lines and every counter are the sums of those of the
    separate runs. *)
Theorem passes_compose (lines1 lines2 : list str) :
  ∃ d d1 d2 total1 total2 final1 final2,
    filter_passes nlp lines1 = Ok (d1, total1, final1) ∧
    filter_passes nlp lines2 = Ok (d2, total2, final2) ∧
    filter_passes nlp (lines1 ++ lines2)
      = Ok (d, total1 + total2, final1 ++ final2) ∧
    ∀ name, counter d name = counter d1 name + counter d2 name.
Proof.
  destruct (filter_passes_counters nlp lines1) as (d1 & Hrun1 & Hcnt1).
  destruct (filter_passes_counters nlp lines2) as (d2 & Hrun2 & Hcnt2).
  destruct (filter_passes_counters nlp (lines1 ++ lines2))
    as (d & Hrun & Hcnt).
  assert (input_sentences (lines1 ++ lines2)
          = input_sentences lines1 ++ input_sentences lines2) as Happ
    by apply omap_app.
  rewrite Happ in Hrun, Hcnt.
  rewrite List.filter_app, len_app in Hrun.
  eexists d, d1, d2, _, _, _, _. split_and!; [done..|].
  intros name. unfold counter. rewrite Hcnt, Hcnt1, Hcnt2.
  rewrite !List.filter_app, !len_app.
  repeat case_decide; done.
Qed.

(** X7: the final accepted sequence is the sequence of input
    sentences with those removed that some fast filter does not accept
    or in which the tagger finds a proper noun; nothing else is
    removed, and repeated sentences stay repeated. *)
Theorem final_pass_exact (lines : list str) :
  ∃ d total_lines final_pass,
    filter_passes nlp lines = Ok (d, total_lines, final_pass) ∧
    final_pass = List.filter (kept nlp) (input_sentences lines) ∧
    ∀ s, s ∈ final_pass ↔
         s ∈ input_sentences lines ∧
         Forall (λ p, p.1 s = Ok true) fast_filters ∧
         Forall (λ token, pos_ token ≠ "PROPN"%string) (nlp s).
Proof.
  destruct (filter_passes_spec nlp lines) as (d & Hrun & _).
  eexists _, _, _. split; [exact Hrun|]. split; [done|].
  intros s. rewrite <- kept_iff, !list_elem_of_In. apply List.filter_In.
Qed.

(** X8: [main] raises on a chunk size of zero, with the [ValueError]
    of [range], and on nothing else: no line, sentence or tagger makes
    a filter, the dictionary or the writer fail. *)
Theorem main_raises_only_on_zero_chunk_size (lines : list str)
    (output_folder : str) (single_sentences : bool) (chunk_size : Z) :
  match main nlp lines output_folder single_sentences chunk_size with
  | Ok r => chunk_size ≠ 0
  | Raise e => e = ValueError ∧ chunk_size = 0
  end.
Proof.
  destruct (filter_passes_spec nlp lines) as (d & Hrun & _).
  unfold main, write_chunks. rewrite Hrun, bind_Ok.
  destruct chunk_size as [|p|p]; unfold range, mret, result_ret.
  - by rewrite !bind_Raise.
  - by rewrite bind_Ok, write_fold, bind_Ok.
  - by rewrite bind_Ok, write_fold, bind_Ok.
Qed.

(** X9: with a negative chunk size the run completes and reports its
    counters, but writes no file: the accepted sentences are lost. *)
Theorem negative_chunk_size_writes_nothing (lines : list str)
    (output_folder : str) (single_sentences : bool) (chunk_size : Z) :
  chunk_size < 0 →
  ∃ r,
    main nlp lines output_folder single_sentences chunk_size = Ok r ∧
    written r = [] ∧ chunk_count r = 0 ∧
    total_final r = len (List.filter (kept nlp) (input_sentences lines)).
Proof.
  intros Hneg. destruct (filter_passes_spec nlp lines) as (d & Hrun & _).
  unfold main, write_chunks. rewrite Hrun, bind_Ok.
  destruct chunk_size as [|p|p]; [lia..|]. unfold range.
  rewrite bind_Ok, range_nonpositive by apply len_nonneg.
  eexists. by split_and!.
Qed.

End RunFacts.

Lemma negative_chunk_size_writes_nothing_witness :
  ∃ r,
    @main latin1 no_proper_nouns
      [lit "1" ++ tab ++ lit "Hallo der du der." ++ newline]
      (lit "out") true (-1) = Ok r ∧
    written r = [] ∧ chunk_count r = 0 ∧ total_final r = 1.
Proof.
  destruct (@negative_chunk_size_writes_nothing latin1 no_proper_nouns
              [lit "1" ++ tab ++ lit "Hallo der du der." ++ newline]
              (lit "out") true (-1)) as (r & Hrun & Hw & Hc & Ht); [lia|].
  exists r. split_and!; [done..|]. rewrite Ht. by vm_compute.
Defined.

(** ** What reaches the output files *)

Lemma sentence_of_stripped line s :
  sentence_of line = Some s →
  lstrip s = s ∧ rstrip s = s ∧ count 9%N s = 0.
Proof.
  intros Hs. split_and!; [..|by eapply sentence_of_no_tab].
  all: unfold sentence_of in Hs; destruct (truthy (strip line)); [|done].
  all: destruct (split_on 9%N (strip line)) as [|a [|b r]]; [done..|].
  all: injection Hs as <-.
  - apply lstrip_strip.
  - apply rstrip_strip.
Qed.

Lemma last_text_None files path :
  path ∉ chunk_filename <$> files → last_text files path = None.
Proof.
  induction files as [|f files IH] using rev_ind; [done|].
  rewrite fmap_app, not_elem_of_app. intros [Hfiles Hf].
  unfold last_text in *. rewrite foldl_app. simpl.
  rewrite decide_False; [by apply IH|].
  intros Heq. apply Hf. rewrite <- Heq. simpl. left.
Qed.

Lemma last_text_NoDup files f :
  NoDup (chunk_filename <$> files) → f ∈ files →
  last_text files (chunk_filename f) = Some (text f).
Proof.
  induction files as [|g files IH] using rev_ind; [by intros _ ?%elem_of_nil|].
  rewrite fmap_app. intros (Hnd & Hdisj & _)%NoDup_app.
  unfold last_text in *. rewrite foldl_app. simpl.
  intros [Hin|Hin%list_elem_of_singleton]%elem_of_app.
  - rewrite decide_False; [by apply IH|].
    intros Heq. apply (Hdisj (chunk_filename f)).
    + apply list_elem_of_fmap. eauto.
    + rewrite <- Heq. simpl. left.
  - subst g. by rewrite decide_True.
Qed.

Section OutputSentences.
Context {UD : UnicodeData} (nlp : str → list Token).

Lemma written_sentence lines output_folder single_sentences chunk_size r f s :
  main nlp lines output_folder single_sentences chunk_size = Ok r →
  f ∈ written r → s ∈ chunk f →
  (∃ line, line ∈ lines ∧ sentence_of line = Some s) ∧ kept nlp s = true.
Proof.
  intros (d & indices & _ & _ & ->)%main_spec. cbn [written].
  intros [k Hf]%list_elem_of_lookup Hs. rewrite list_lookup_imap in Hf.
  destruct (indices !! k) as [i|]; [|done]. injection Hf as <-.
  cbn [chunk file_at] in Hs.
  eapply elem_of_sublist in Hs; [|apply slice_sublist].
  apply list_elem_of_In, List.filter_In in Hs as [Hs%list_elem_of_In Hkept].
  split; [|done]. by apply list_elem_of_omap in Hs.
Qed.

Lemma written_names lines output_folder single_sentences chunk_size r :
  main nlp lines output_folder single_sentences chunk_size = Ok r →
  chunk_count r = len (written r) ∧
  NoDup (chunk_filename <$> written r) ∧
  ∀ (k : nat) f, written r !! k = Some f →
    chunk_filename f
    = path_join output_folder
        (lit "output_" ++ str_of_int (Z.of_nat k + 1) ++ lit ".tsv").
Proof.
  intros (d & indices & _ & _ & ->)%main_spec. cbn [written chunk_count].
  split_and!.
  - unfold len. by rewrite length_imap.
  - apply NoDup_alt. intros k1 k2 name.
    rewrite !list_lookup_fmap, !list_lookup_imap.
    destruct (indices !! k1) as [i1|]; [|done].
    destruct (indices !! k2) as [i2|]; [|done]. simpl.
    intros [= <-] [= H%chunk_filename_inj]. lia.
  - intros k f. rewrite list_lookup_imap.
    destruct (indices !! k) as [i|]; [|done]. by intros [= <-].
Qed.

(** X10: every sentence in a chunk of a written file is one the input
    holds, begins with an uppercase character, ends in its only full
    stop or question mark, has no leading or trailing whitespace, no
    tab, no parenthesis, no digit and only allowed characters, has 2 to
    11 words of which none after the first begins with an uppercase
    character, and gets no PROPN tag. *)
Theorem written_sentences_well_formed (lines : list str)
    (output_folder : str) (single_sentences : bool) (chunk_size : Z)
    (r : report) (f : output_file) (s : str) :
  main nlp lines output_folder single_sentences chunk_size = Ok r →
  f ∈ written r → s ∈ chunk f →
  s ∈ input_sentences lines ∧
  (∃ c rest, s = c :: rest ∧ isupper c = true) ∧
  (∃ body c, s = body ++ [c] ∧ end_punct c = true ∧
             count 46%N body = 0 ∧ count 63%N body = 0) ∧
  strip s = s ∧ count 9%N s = 0 ∧
  contains 40%N s = false ∧ contains 41%N s = false ∧
  existsb isdigit s = false ∧ forallb allowed_char s = true ∧
  2 ≤ len (split s) ≤ 11 ∧
  (∀ word c, word ∈ tail (split s) → head word = Some c →
             isupper c = false) ∧
  Forall (λ token, pos_ token ≠ "PROPN"%string) (nlp s).
Proof.
  intros Hrun Hf Hs.
  destruct (written_sentence _ _ _ _ _ _ _ Hrun Hf Hs)
    as [(line & Hline & Hsent) [Hfast Hnlp]%kept_iff].
  destruct (sentence_of_stripped _ _ Hsent) as (Hl & Hr & Htab).
  unfold fast_filters in Hfast. rewrite !Forall_cons in Hfast.
  destruct Hfast as (H1 & H2 & _ & H4 & H5 & H6 & H7 & _ & H9 & _).
  simpl in H1, H2, H4, H5, H6, H7, H9.
  split_and!; try done.
  - apply list_elem_of_omap. eauto.
  - rewrite starts_with_capital_eq, Hl in H1.
    destruct s as [|c rest]; [done|]. injection H1 as H1. eauto.
  - apply only_one_sentence_shape in H4 as (body & c & Hb & Hrest).
    rewrite Hr in Hb. eauto.
  - unfold strip. by rewrite Hl.
  - unfold has_no_parentheses in H2. injection H2 as H2.
    apply andb_prop in H2 as [H2 _]. by apply negb_true_iff.
  - unfold has_no_parentheses in H2. injection H2 as H2.
    apply andb_prop in H2 as [_ H2]. by apply negb_true_iff.
  - unfold has_no_numbers in H5. injection H5 as H5.
    by apply negb_true_iff.
  - unfold no_special_characters in H6. by injection H6.
  - by apply reading_time_word_count.
  - by apply reading_time_word_count.
  - rewrite basic_proper_noun_filter_eq in H9. injection H9 as H9.
    rewrite forallb_forall in H9.
    intros word c Hin%list_elem_of_In Hc. specialize (H9 _ Hin).
    destruct word as [|c' w]; [done|]. injection Hc as ->.
    by apply negb_true_iff.
Qed.

(** X11: when the run is over, every file it wrote holds the text of
    its chunk, under the name output_k.tsv of its index k; a path the
    run did not write, such as output_k.tsv with k above chunk_count
    left by an earlier run, holds what it held before. *)
Theorem writer_touches_only_its_files (lines : list str)
    (output_folder : str) (single_sentences : bool) (chunk_size : Z)
    (r : report) (disk : gmap str str) :
  main nlp lines output_folder single_sentences chunk_size = Ok r →
  (∀ (k : nat) f, written r !! k = Some f →
     disk_after disk (written r)
       !! path_join output_folder
            (lit "output_" ++ str_of_int (Z.of_nat k + 1) ++ lit ".tsv")
     = Some (text f)) ∧
  (∀ path, path ∉ chunk_filename <$> written r →
     disk_after disk (written r) !! path = disk !! path) ∧
  (∀ k, chunk_count r < k →
     disk_after disk (written r)
       !! path_join output_folder
            (lit "output_" ++ str_of_int k ++ lit ".tsv")
     = disk !! path_join output_folder
                 (lit "output_" ++ str_of_int k ++ lit ".tsv")).
Proof.
  intros Hrun. destruct (written_names _ _ _ _ _ Hrun) as (Hcount & Hnd & Hname).
  assert (∀ path, path ∉ chunk_filename <$> written r →
            disk_after disk (written r) !! path = disk !! path) as Hother.
  { intros path Hpath. by rewrite disk_after_lookup, last_text_None. }
  split_and!; [|done|].
  - intros k f Hf. rewrite <- (Hname k f Hf), disk_after_lookup.
    rewrite (last_text_NoDup _ f Hnd); [done|].
    apply list_elem_of_lookup. eauto.
  - intros k Hk. apply Hother.
    intros (f & Hpath & [j Hf]%list_elem_of_lookup)%list_elem_of_fmap.
    rewrite (Hname j f Hf) in Hpath. apply chunk_filename_inj in Hpath.
    apply lookup_lt_Some in Hf. unfold len in Hcount. lia.
Qed.

End OutputSentences.

(** A run that writes one sentence. *)
Lemma written_sentences_well_formed_witness :
  ∃ r,
    @main latin1 no_proper_nouns
      [lit "1" ++ tab ++ lit "Hallo der du der." ++ newline]
      (lit "out") true 2 = Ok r ∧
    ∀ f s, f ∈ written r → s ∈ chunk f →
      ∃ c rest, s = c :: rest ∧ @isupper latin1 c = true.
Proof.
  destruct (@main latin1 no_proper_nouns
              [lit "1" ++ tab ++ lit "Hallo der du der." ++ newline]
              (lit "out") true 2) as [r|e] eqn:Hrun.
  - exists r. split; [reflexivity|]. intros f s Hf Hs.
    destruct (@written_sentences_well_formed latin1 no_proper_nouns
                [lit "1" ++ tab ++ lit "Hallo der du der." ++ newline]
                (lit "out") true 2 r f s Hrun Hf Hs) as (_ & H & _).
    exact H.
  - vm_compute in Hrun. discriminate Hrun.
Defined.

(** A run of one chunk over a folder that holds a stale second chunk. *)
Lemma writer_touches_only_its_files_witness :
  ∃ r,
    @main latin1 no_proper_nouns
      [lit "1" ++ tab ++ lit "Hallo der du der." ++ newline]
      (lit "out") true 2 = Ok r ∧
    disk_after {[ lit "out/output_2.tsv" := lit "old" ]} (written r)
      !! path_join (lit "out") (lit "output_" ++ str_of_int 2 ++ lit ".tsv")
    = ({[ lit "out/output_2.tsv" := lit "old" ]} : gmap str str)
      !! path_join (lit "out") (lit "output_" ++ str_of_int 2 ++ lit ".tsv").
Proof.
  destruct (@main latin1 no_proper_nouns
              [lit "1" ++ tab ++ lit "Hallo der du der." ++ newline]
              (lit "out") true 2) as [r|e] eqn:Hrun.
  - exists r. split; [reflexivity|].
    destruct (@writer_touches_only_its_files latin1 no_proper_nouns
                [lit "1" ++ tab ++ lit "Hallo der du der." ++ newline]
                (lit "out") true 2 r
                {[ lit "out/output_2.tsv" := lit "old" ]} Hrun)
      as (_ & _ & H).
    apply H. vm_compute in Hrun. injection Hrun as <-. simpl. lia.
  - vm_compute in Hrun. discriminate Hrun.
Defined.
